(** * The label list editor of the deploy form

    A shallow embedding of
    [src/app/frontend/deploy/deploylabel_controller.js]
    (class [DeployLabelController]) and the properties of its three
    exported methods [check], [isRemovable] and [deleteLabel].

    - JavaScript strings are sequences of UTF-16 code units.
    - The three regular-expression literals of the controller are kept as
      syntax trees and run by a derivative matcher.
    - Label objects live in a store and are named by references, so that
      [===], [!==] and [indexOf] on objects compare identities.
    - A property access on [undefined] is a thrown [TypeError]. *)

From Stdlib Require Import ZArith NArith List Ascii String Lia Bool.
From stdpp Require Import base option gmap strings list.
Import ListNotations.

Local Open Scope Z_scope.

(** ** JavaScript strings *)

(** A UTF-16 code unit. *)
Definition char := N.

Abbreviation jsstring := (list char).

Definition ch (a : ascii) : char := N_of_ascii a.

(** The JavaScript string written with the characters of [s]. *)
Definition str (s : string) : jsstring := map ch (list_ascii_of_string s).

(** [s.length] *)
Definition js_length (s : jsstring) : Z := Z.of_nat (length s).

(** [s === t] on strings: same code units. *)
Definition str_eqb (s t : jsstring) : bool := bool_decide (s = t).

(** [s.substring(start, end)]: both indices are clamped to [0, s.length]
    and swapped when [start > end]. *)
Definition substring (s : jsstring) (start end_ : Z) : jsstring :=
  let len := js_length s in
  let a := Z.min (Z.max start 0) len in
  let b := Z.min (Z.max end_ 0) len in
  let from := Z.min a b in
  let to := Z.max a b in
  take (Z.to_nat (to - from)) (drop (Z.to_nat from) s).

(** [s.substring(start)]: the end index defaults to [s.length]. *)
Definition substring_from (s : jsstring) (start : Z) : jsstring :=
  substring s start (js_length s).

(** [s.startsWith(pat)], used by the search below. *)
Fixpoint starts_with (pat s : jsstring) : bool :=
  match pat, s with
  | [], _ => true
  | _ :: _, [] => false
  | p :: pat', c :: s' => (p =? c)%N && starts_with pat' s'
  end.

Fixpoint indexOf_at (pat s : jsstring) (i : Z) : Z :=
  if starts_with pat s then i
  else match s with
       | [] => -1
       | _ :: s' => indexOf_at pat s' (i + 1)
       end.

(** [s.indexOf(pat)]: the least index at which [pat] occurs, [-1] when
    there is none. *)
Definition indexOf (s pat : jsstring) : Z := indexOf_at pat s 0.

(** ** Regular expressions *)

(** A member of a character class: a single code unit or a range. *)
Inductive cls_item : Type :=
| One (c : char)
| Range (lo hi : char).

Inductive regex : Type :=
| Void                            (* matches nothing: only in derivatives *)
| Eps                             (* the empty pattern *)
| Chr (c : char)                  (* a literal or escaped character *)
| Cls (items : list cls_item)     (* [...] *)
| Dot                             (* . *)
| Seq (r1 r2 : regex)             (* r1r2 *)
| Alt (r1 r2 : regex)             (* r1|r2 *)
| Star (r : regex)                (* r followed by a star *)
| Opt (r : regex).                (* (r)? *)

(** The code units that [.] does not match (no [s] flag). *)
Definition isLineTerminator (c : char) : bool :=
  ((c =? 10) || (c =? 13) || (c =? 8232) || (c =? 8233))%N.

Definition in_item (c : char) (i : cls_item) : bool :=
  match i with
  | One d => (c =? d)%N
  | Range lo hi => ((lo <=? c) && (c <=? hi))%N
  end.

Definition in_cls (items : list cls_item) (c : char) : bool :=
  existsb (in_item c) items.

Fixpoint nullable (r : regex) : bool :=
  match r with
  | Void => false
  | Eps => true
  | Chr _ => false
  | Cls _ => false
  | Dot => false
  | Seq r1 r2 => nullable r1 && nullable r2
  | Alt r1 r2 => nullable r1 || nullable r2
  | Star _ => true
  | Opt _ => true
  end.

Definition guard (b : bool) : regex := if b then Eps else Void.

(** What is left of [r] after reading the code unit [c]. *)
Fixpoint deriv (c : char) (r : regex) : regex :=
  match r with
  | Void => Void
  | Eps => Void
  | Chr d => guard (c =? d)%N
  | Cls items => guard (in_cls items c)
  | Dot => guard (negb (isLineTerminator c))
  | Seq r1 r2 =>
      if nullable r1 then Alt (Seq (deriv c r1) r2) (deriv c r2)
      else Seq (deriv c r1) r2
  | Alt r1 r2 => Alt (deriv c r1) (deriv c r2)
  | Star r1 => Seq (deriv c r1) (Star r1)
  | Opt r1 => deriv c r1
  end.

Fixpoint accepts (r : regex) (s : jsstring) : bool :=
  match s with
  | [] => nullable r
  | c :: s' => accepts (deriv c r) s'
  end.

(** [/^r$/.test(s)] for a literal without flags: [^] and [$] only match
    at the two ends of the input, so the test succeeds exactly when the
    whole of [s] matches [r]. *)
Definition test (r : regex) (s : jsstring) : bool := accepts r s.

(** The strings a pattern matches. *)
Inductive matches : regex -> jsstring -> Prop :=
| m_eps : matches Eps []
| m_chr c : matches (Chr c) [c]
| m_cls items c : in_cls items c = true -> matches (Cls items) [c]
| m_dot c : isLineTerminator c = false -> matches Dot [c]
| m_seq r1 r2 s1 s2 :
    matches r1 s1 -> matches r2 s2 -> matches (Seq r1 r2) (s1 ++ s2)
| m_alt_l r1 r2 s : matches r1 s -> matches (Alt r1 r2) s
| m_alt_r r1 r2 s : matches r2 s -> matches (Alt r1 r2) s
| m_star_nil r : matches (Star r) []
| m_star_app r s1 s2 :
    matches r s1 -> matches (Star r) s2 -> matches (Star r) (s1 ++ s2)
| m_opt_none r : matches (Opt r) []
| m_opt_some r s : matches r s -> matches (Opt r) s.

(** ** The patterns of the controller *)

Definition lower_digit : list cls_item :=
  [Range (ch "a") (ch "z"); Range (ch "0") (ch "9")].

Definition hyphen_lower_digit : list cls_item :=
  [One (ch "-"); Range (ch "a") (ch "z"); Range (ch "0") (ch "9")].

Definition alnum : list cls_item :=
  [Range (ch "A") (ch "Z"); Range (ch "a") (ch "z"); Range (ch "0") (ch "9")].

Definition name_chars : list cls_item :=
  [One (ch "-"); Range (ch "A") (ch "Z"); Range (ch "a") (ch "z");
   Range (ch "0") (ch "9"); One (ch "_"); One (ch ".")].

(** [PrefixPattern], written here with blanks between its parts:
    [^ ( .* \/ .* ) $]. *)
Definition PrefixPattern : regex :=
  Seq (Star Dot) (Seq (Chr (ch "/")) (Star Dot)).

(** One DNS label, [[a-z0-9] ( [-a-z0-9]* [a-z0-9] )?]. *)
Definition dns_label : regex :=
  Seq (Cls lower_digit)
      (Opt (Seq (Star (Cls hyphen_lower_digit)) (Cls lower_digit))).

(** [labelKeyPrefixPattern]: with [L] for one DNS label as above,
    [^ L ( \. L )* $]. *)
Definition labelKeyPrefixPattern : regex :=
  Seq dns_label (Star (Seq (Chr (ch ".")) dns_label)).

(** [labelKeyNamePattern]:
    [^ ( [A-Za-z0-9] [-A-Za-z0-9_.]* )? [A-Za-z0-9] $]. *)
Definition labelKeyNamePattern : regex :=
  Seq (Opt (Seq (Cls alnum) (Star (Cls name_chars)))) (Cls alnum).

(** ** Label objects, references and abrupt completion *)

(** A reference to a label object: its identity. *)
Definition loc := nat.

(** Modelled from the spec: the class [DeployLabel] is imported from
    [./deploylabel], which is not among the sources. A label entry has a
    [key] string, a [value] accessor and an [editable] flag, and this is
    how the controller reads it: [label.key], [label.value()],
    [label.editable]. *)
Record DeployLabel : Type := {
  key : jsstring;
  value : unit -> jsstring;
  editable : bool
}.

(** Modelled from the spec: the constructor of [DeployLabel] is not
    among the sources either; [new DeployLabel()] is the blank entry of
    the specification, with an empty key, an empty value and [editable]
    true. *)
Definition new_DeployLabel : DeployLabel :=
  {| key := []; value := fun _ => []; editable := true |}.

(** What an array read gives: a reference, or [undefined] outside the
    array. *)
Inductive val : Type :=
| VUndefined
| VRef (l : loc).

Definition val_eqb (v w : val) : bool :=
  match v, w with
  | VUndefined, VUndefined => true
  | VRef l, VRef m => bool_decide (l = m)
  | _, _ => false
  end.

Inductive exn : Type :=
| TypeError.

(** The ways a call ends. [Dangling] marks a reference that the store has
    no object for; a running program has none, and it is kept apart from
    the exceptions of the language. *)
Inductive outcome (A : Type) : Type :=
| Ok (a : A)
| Throw (e : exn)
| Dangling.

Arguments Ok {A} a.
Arguments Throw {A} e.
Arguments Dangling {A}.

#[global] Instance outcome_ret : MRet outcome := fun A a => Ok a.

#[global] Instance outcome_bind : MBind outcome := fun A B f m =>
  match m with
  | Ok a => f a
  | Throw e => Throw e
  | Dangling => Dangling
  end.

(** The object behind a value, as needed to read one of its properties:
    reading a property of [undefined] throws. *)
Definition obj_of (h : gmap loc DeployLabel) (v : val) : outcome DeployLabel :=
  match v with
  | VUndefined => Throw TypeError
  | VRef l => match h !! l with
              | Some o => Ok o
              | None => Dangling
              end
  end.

(** ** Arrays of labels *)

Definition array_length (a : list loc) : Z := Z.of_nat (length a).

(** [a[i]] *)
Definition get_index (a : list loc) (i : Z) : val :=
  if i <? 0 then VUndefined
  else match a !! Z.to_nat i with
       | Some l => VRef l
       | None => VUndefined
       end.

Fixpoint array_indexOf_at (a : list loc) (x : loc) (i : Z) : Z :=
  match a with
  | [] => -1
  | y :: a' => if bool_decide (y = x) then i else array_indexOf_at a' x (i + 1)
  end.

(** [a.indexOf(x)]: the first index holding the very object [x]. *)
Definition array_indexOf (a : list loc) (x : loc) : Z := array_indexOf_at a x 0.

(** [a.splice(start, deleteCount)], the array it leaves behind. *)
Definition splice (a : list loc) (start deleteCount : Z) : list loc :=
  let len := array_length a in
  let from := if start <? 0 then Z.max (len + start) 0 else Z.min start len in
  let count := Z.min (Z.max deleteCount 0) (len - from) in
  take (Z.to_nat from) a ++ drop (Z.to_nat (from + count)) a.

(** [a.forEach(f)] with the variables [f] updates threaded as [s]. *)
Fixpoint forEach {S : Type} (f : S -> loc -> outcome S) (a : list loc) (s : S)
  : outcome S :=
  match a with
  | [] => mret s
  | x :: a' => s' ← f s x; forEach f a' s'
  end.

(** ** The form *)

(** The validity flags of one input, by name: what [$setValidity] has
    recorded. *)
Abbreviation NgModelController := (gmap string bool).

(** [elem.$setValidity(name, isValid)] *)
Definition setValidity (name : string) (isValid : bool) (elem : NgModelController)
  : NgModelController := <[name := isValid]> elem.

Module Form.
(** The form of one label row; [key] is its key input. *)
Record FormController : Type := { key : NgModelController }.
End Form.

(** ** The controller *)

(** The fields [label] (the row at hand) and [labels] (the shared list),
    together with the store of the label objects. *)
Record DeployLabelController : Type := {
  heap : gmap loc DeployLabel;
  labels : list loc;
  label : loc
}.

(** [isFilled_(label)] *)
Definition isFilled_ (this : DeployLabelController) (label : val) : outcome bool :=
  o ← obj_of (heap this) label;
  mret (negb (js_length (key o) =? 0) && negb (js_length (value o tt) =? 0)).

(** [addNewLabel_()]: a fresh object is pushed. *)
Definition addNewLabel_ (this : DeployLabelController) : DeployLabelController :=
  let l := fresh (dom (heap this)) in
  {| heap := <[l := new_DeployLabel]> (heap this);
     labels := labels this ++ [l];
     label := label this |}.

(** [addIfNeeded_()] *)
Definition addIfNeeded_ (this : DeployLabelController) : outcome DeployLabelController :=
  let lastLabel := get_index (labels this) (array_length (labels this) - 1) in
  filled ← isFilled_ this lastLabel;
  mret (if filled : bool then addNewLabel_ this else this).

(** The body of the loop of [isKeyDuplicated_]. *)
Definition count_duplicate (this : DeployLabelController) (duplications : Z) (l : loc)
  : outcome Z :=
  cur ← obj_of (heap this) (VRef (label this));
  if negb (js_length (key cur) =? 0) then
    o ← obj_of (heap this) (VRef l);
    mret (if str_eqb (key o) (key cur) then duplications + 1 else duplications)
  else mret duplications.

(** [isKeyDuplicated_()] *)
Definition isKeyDuplicated_ (this : DeployLabelController) : outcome bool :=
  duplications ← forEach (count_duplicate this) (labels this) 0;
  mret (1 <? duplications).

(** [matchesKeyPrefixPattern_(isPrefixed, slashPosition)] *)
Definition matchesKeyPrefixPattern_ (this : DeployLabelController)
    (isPrefixed : bool) (slashPosition : Z) : outcome bool :=
  labelPrefix ←
    (if isPrefixed then
       cur ← obj_of (heap this) (VRef (label this));
       mret (substring (key cur) 0 slashPosition)
     else mret (str "valid-pattern"));
  mret (test labelKeyPrefixPattern labelPrefix).

(** [matchesKeyNamePattern_(isPrefixed, slashPosition)] *)
Definition matchesKeyNamePattern_ (this : DeployLabelController)
    (isPrefixed : bool) (slashPosition : Z) : outcome bool :=
  cur ← obj_of (heap this) (VRef (label this));
  let labelName :=
    if isPrefixed then substring_from (key cur) (slashPosition + 1) else key cur in
  mret (test labelKeyNamePattern labelName).

(** [matchesKeyPrefixLength_(isPrefixed, slashPosition)] *)
Definition matchesKeyPrefixLength_ (this : DeployLabelController)
    (isPrefixed : bool) (slashPosition : Z) : outcome bool :=
  let maxLength := 253 in
  labelPrefix ←
    (if isPrefixed then
       cur ← obj_of (heap this) (VRef (label this));
       mret (substring (key cur) 0 slashPosition)
     else mret []);
  mret (js_length labelPrefix <=? maxLength).

(** [matchesKeyNameLength_(isPrefixed, slashPosition)] *)
Definition matchesKeyNameLength_ (this : DeployLabelController)
    (isPrefixed : bool) (slashPosition : Z) : outcome bool :=
  let maxLength := 63 in
  cur ← obj_of (heap this) (VRef (label this));
  let labelName :=
    if isPrefixed then substring_from (key cur) (slashPosition + 1) else key cur in
  mret (js_length labelName <=? maxLength).

(** [validateKey_(labelForm)]; [None] is an undefined [labelForm]. *)
Definition validateKey_ (this : DeployLabelController)
    (labelForm : option Form.FormController)
  : outcome (option Form.FormController) :=
  match labelForm with
  | None => mret None
  | Some labelForm =>
      let elem := Form.key labelForm in
      cur ← obj_of (heap this) (VRef (label this));
      let isPrefixed := test PrefixPattern (key cur) in
      slashPosition ←
        (if isPrefixed then
           cur ← obj_of (heap this) (VRef (label this));
           mret (indexOf (key cur) (str "/"))
         else mret (-1));
      duplicated ← isKeyDuplicated_ this;
      let isUnique := negb duplicated in
      isKeyPrefixPatternOk ← matchesKeyPrefixPattern_ this isPrefixed slashPosition;
      isKeyNamePatternOk ← matchesKeyNamePattern_ this isPrefixed slashPosition;
      isKeyPrefixLengthOk ← matchesKeyPrefixLength_ this isPrefixed slashPosition;
      isKeyNameLengthOk ← matchesKeyNameLength_ this isPrefixed slashPosition;
      let elem := setValidity "unique" isUnique elem in
      let elem := setValidity "prefixPattern" isKeyPrefixPatternOk elem in
      let elem := setValidity "namePattern" isKeyNamePatternOk elem in
      let elem := setValidity "prefixLength" isKeyPrefixLengthOk elem in
      let elem := setValidity "nameLength" isKeyNameLengthOk elem in
      mret (Some {| Form.key := elem |})
  end.

(** [check(labelForm)] *)
Definition check (this : DeployLabelController)
    (labelForm : option Form.FormController)
  : outcome (DeployLabelController * option Form.FormController) :=
  this' ← addIfNeeded_ this;
  labelForm' ← validateKey_ this' labelForm;
  mret (this', labelForm').

(** [isRemovable()] *)
Definition isRemovable (this : DeployLabelController) : outcome bool :=
  let lastElement := get_index (labels this) (array_length (labels this) - 1) in
  cur ← obj_of (heap this) (VRef (label this));
  mret (editable cur && negb (val_eqb (VRef (label this)) lastElement)).

(** [deleteLabel()] *)
Definition deleteLabel (this : DeployLabelController) : DeployLabelController :=
  let rowIdx := array_indexOf (labels this) (label this) in
  if -1 <? rowIdx then
    {| heap := heap this;
       labels := splice (labels this) rowIdx 1;
       label := label this |}
  else this.

(** The store has an object for the reference [l]. *)
Definition alive (h : gmap loc DeployLabel) (l : loc) : bool :=
  match h !! l with
  | Some _ => true
  | None => false
  end.

(** Every reference of the controller has its object, as in any state a
    program reaches. *)
Definition wf (this : DeployLabelController) : bool :=
  alive (heap this) (label this) && forallb (alive (heap this)) (labels this).

(** ** Label keys as the specification describes them *)

Definition slash : char := ch "/".

(** The key contains a "/" somewhere. *)
Definition has_slash (k : jsstring) : bool := existsb (N.eqb slash) k.

(** The key contains a line terminator (LF, CR, LS or PS). *)
Definition has_line_terminator (k : jsstring) : bool := existsb isLineTerminator k.

(** The characters before the first [c]. *)
Fixpoint before_first (c : char) (s : jsstring) : jsstring :=
  match s with
  | [] => []
  | d :: s' => if (d =? c)%N then [] else d :: before_first c s'
  end.

(** The characters after the first [c]. *)
Fixpoint after_first (c : char) (s : jsstring) : jsstring :=
  match s with
  | [] => []
  | d :: s' => if (d =? c)%N then s' else after_first c s'
  end.

(** The prefix of a key: what stands before its first "/", and the empty
    string when it has none. *)
Definition prefix_of (k : jsstring) : jsstring :=
  if has_slash k then before_first slash k else [].

(** The name of a key: what stands after its first "/", and the whole key
    when it has none. *)
Definition name_of (k : jsstring) : jsstring :=
  if has_slash k then after_first slash k else k.

Definition in_range (lo hi : ascii) (c : char) : bool :=
  ((ch lo <=? c) && (c <=? ch hi))%N.

(** A letter of either case or a digit. *)
Definition alphanumeric (c : char) : bool :=
  in_range "A" "Z" c || in_range "a" "z" c || in_range "0" "9" c.

(** An alphanumeric character, a hyphen, an underscore or a dot. *)
Definition name_character (c : char) : bool :=
  alphanumeric c || (c =? ch "-")%N || (c =? ch "_")%N || (c =? ch ".")%N.

(** One alphanumeric character, optionally followed by name characters
    and ending in an alphanumeric character. *)
Definition name_shape (s : jsstring) : Prop :=
  (exists c, s = [c] /\ alphanumeric c = true) \/
  (exists c mid d,
      s = c :: mid ++ [d] /\
      alphanumeric c = true /\
      forallb name_character mid = true /\
      alphanumeric d = true).

(** ** Entries and lists as the specification describes them *)

(** A filled entry: its key and its value are both non-empty. *)
Definition filled (o : DeployLabel) : bool :=
  negb (bool_decide (key o = [])) && negb (bool_decide (value o tt = [])).

(** The entry behind [l] has the key [k]. *)
Definition has_key (h : gmap loc DeployLabel) (k : jsstring) (l : loc) : bool :=
  match h !! l with
  | Some o => bool_decide (key o = k)
  | None => false
  end.

(** How many entries of the list have the key [k]. *)
Fixpoint occurrences (h : gmap loc DeployLabel) (k : jsstring) (ls : list loc) : Z :=
  match ls with
  | [] => 0
  | l :: ls' => (if has_key h k l then 1 else 0) + occurrences h k ls'
  end.

(** The list without the first occurrence of [x]. *)
Fixpoint remove_first (x : loc) (ls : list loc) : list loc :=
  match ls with
  | [] => []
  | y :: ls' => if bool_decide (y = x) then ls' else y :: remove_first x ls'
  end.

(** Runs the binds of a call whose first step is known. *)
Ltac run := cbn [mbind mret outcome_bind outcome_ret].

(** ** The locals of [validateKey_] as functions of the key *)

Definition isPrefixed (k : jsstring) : bool := test PrefixPattern k.

Definition slashPosition (k : jsstring) : Z :=
  if isPrefixed k then indexOf k (str "/") else -1.

(** [labelPrefix]; [otherwise] is what the method takes for a key that is
    not prefixed. *)
Definition labelPrefix (k otherwise : jsstring) : jsstring :=
  if isPrefixed k then substring k 0 (slashPosition k) else otherwise.

Definition labelName (k : jsstring) : jsstring :=
  if isPrefixed k then substring_from k (slashPosition k + 1) else k.

(** The counter of [isKeyDuplicated_] after its loop. *)
Definition duplications (this : DeployLabelController) (k : jsstring) : Z :=
  if bool_decide (k = []) then 0 else occurrences (heap this) k (labels this).

(** The flags that [validateKey_] sets for the key [k]. *)
Definition validated (this : DeployLabelController) (k : jsstring)
    (elem : NgModelController) : NgModelController :=
  setValidity "nameLength" (js_length (labelName k) <=? 63)
    (setValidity "prefixLength" (js_length (labelPrefix k []) <=? 253)
       (setValidity "namePattern" (test labelKeyNamePattern (labelName k))
          (setValidity "prefixPattern"
             (test labelKeyPrefixPattern (labelPrefix k (str "valid-pattern")))
             (setValidity "unique" (negb (1 <? duplications this k)) elem)))).

(** [check] as it runs on a list that is not empty. *)
Definition checked (this : DeployLabelController) (last_entry : DeployLabel)
  : DeployLabelController :=
  if filled last_entry then addNewLabel_ this else this.

(** ** Observations and sample rows *)

(** The flag [check] has set under [name], if it returned with a form. *)
Definition flag (name : string)
    (r : outcome (DeployLabelController * option Form.FormController))
  : option bool :=
  match r with
  | Ok (_, Some form) => Form.key form !! name
  | _ => None
  end.

(** Two or more entries of the list have the key [k], and [k] is not
    empty. *)
Definition duplicated (h : gmap loc DeployLabel) (k : jsstring) (ls : list loc)
  : bool :=
  negb (bool_decide (k = [])) && (2 <=? occurrences h k ls).

(** An editable entry with the given key and value. *)
Definition entry (k v : jsstring) : DeployLabel :=
  {| key := k; value := fun _ => v; editable := true |}.

(** A controller over the given rows, each its own object, with the row
    at index [current] at hand. *)
Definition rows (entries : list DeployLabel) (current : loc)
  : DeployLabelController :=
  {| heap := list_to_map (imap (fun i o => (i, o)) entries);
     labels := seq 0 (length entries);
     label := current |}.

(** A form on which no flag is set yet. *)
Definition empty_form : Form.FormController := {| Form.key := ∅ |}.

(** The line feed and the line separator U+2028. *)
Definition LF : jsstring := [10%N].

Definition LS : jsstring := [8232%N].

(** ** DNS subdomains, as the prefix pattern is documented *)

Definition dot : char := ch ".".

(** A lower-case letter or a digit. *)
Definition lower_alphanumeric (c : char) : bool :=
  in_range "a" "z" c || in_range "0" "9" c.

(** A lower-case letter, a digit or a hyphen. *)
Definition label_character (c : char) : bool :=
  lower_alphanumeric c || (c =? ch "-")%N.

(** One DNS label: not empty, made of label characters, with a lower-case
    letter or a digit at both ends. *)
Definition dns_label_shape (s : jsstring) : bool :=
  match s with
  | [] => false
  | c :: rest =>
      lower_alphanumeric c && forallb label_character rest &&
      match last rest with
      | Some d => lower_alphanumeric d
      | None => true
      end
  end.

(** The pieces of [s] between the occurrences of [c]; there is always at
    least one piece. *)
Fixpoint split_on (c : char) (s : jsstring) : list jsstring :=
  match s with
  | [] => [[]]
  | d :: s' =>
      if (d =? c)%N then [] :: split_on c s'
      else match split_on c s' with
           | piece :: pieces => (d :: piece) :: pieces
           | [] => [[d]]
           end
  end.

(** A DNS subdomain: DNS labels separated by single dots. *)
Definition dns_subdomain (s : jsstring) : bool :=
  forallb dns_label_shape (split_on dot s).

(** A label key as Kubernetes defines it: a name of at most 63
    characters, after an optional DNS subdomain of at most 253 characters
    and a "/". *)
Definition valid_label_key (k : jsstring) : Prop :=
  name_shape (name_of k) /\ js_length (name_of k) <= 63 /\
  (has_slash k = true ->
   dns_subdomain (prefix_of k) = true /\ js_length (prefix_of k) <= 253).

(** The names of the flags [validateKey_] sets. *)
Definition validity_names : list string :=
  ["unique"; "prefixPattern"; "namePattern"; "prefixLength"; "nameLength"].

(** * Properties *)

(** ** The matcher decides the patterns *)

Section Matcher.

Lemma matches_void_inv s : ~ matches Void s.
Proof. intros H. inversion H. Qed.

Lemma matches_eps_inv s : matches Eps s -> s = [].
Proof. intros H. inversion H. reflexivity. Qed.

Lemma matches_seq_inv r1 r2 s :
  matches (Seq r1 r2) s ->
  exists s1 s2, s = s1 ++ s2 /\ matches r1 s1 /\ matches r2 s2.
Proof. intros H. inversion H; subst. eauto. Qed.

Lemma matches_alt_inv r1 r2 s :
  matches (Alt r1 r2) s -> matches r1 s \/ matches r2 s.
Proof. intros H. inversion H; subst; auto. Qed.

Lemma matches_opt_inv r s : matches (Opt r) s -> s = [] \/ matches r s.
Proof. intros H. inversion H; subst; auto. Qed.

Lemma matches_guard b s : matches (guard b) s <-> b = true /\ s = [].
Proof.
  destruct b; simpl; split.
  - intros H. apply matches_eps_inv in H. auto.
  - intros [_ ->]. constructor.
  - intros H. inversion H.
  - intros [H _]. discriminate.
Qed.

(** A non-empty match of a starred pattern starts with a non-empty
    match of its body. *)
Lemma matches_star_cons_inv r c s :
  matches (Star r) (c :: s) ->
  exists s1 s2, s = s1 ++ s2 /\ matches r (c :: s1) /\ matches (Star r) s2.
Proof.
  intros H. remember (Star r) as r' eqn:Er. remember (c :: s) as w eqn:Ew.
  revert s Ew. induction H; intros t Ew; try discriminate.
  injection Er as ->.
  destruct s1 as [|d s1]; simpl in Ew.
  - apply IHmatches2; auto.
  - injection Ew as -> <-. eauto.
Qed.

Lemma nullable_matches r : nullable r = true <-> matches r [].
Proof.
  induction r; simpl; split; intros H;
    try discriminate; try (now inversion H); try (now constructor).
  - apply andb_true_iff in H as [H1 H2].
    apply (m_seq _ _ [] []); [apply IHr1 | apply IHr2]; assumption.
  - apply matches_seq_inv in H as (s1 & s2 & E & H1 & H2).
    symmetry in E. apply app_eq_nil in E as [-> ->].
    apply andb_true_iff. split; [apply IHr1 | apply IHr2]; assumption.
  - apply orb_true_iff in H as [H | H];
      [apply m_alt_l, IHr1 | apply m_alt_r, IHr2]; assumption.
  - apply orb_true_iff. apply matches_alt_inv in H as [H | H];
      [left; apply IHr1 | right; apply IHr2]; assumption.
Qed.

Lemma deriv_matches c r : forall s, matches (deriv c r) s <-> matches r (c :: s).
Proof.
  induction r; intros s; simpl.
  - split; intros H; inversion H.
  - split; intros H; inversion H.
  - rewrite matches_guard. split.
    + intros [E ->]. apply N.eqb_eq in E as ->. constructor.
    + intros H. inversion H; subst. split; [apply N.eqb_refl | reflexivity].
  - rewrite matches_guard. split.
    + intros [E ->]. constructor. assumption.
    + intros H. inversion H; subst. auto.
  - rewrite matches_guard. split.
    + intros [E ->]. constructor. apply negb_true_iff. assumption.
    + intros H. inversion H; subst. split; [apply negb_true_iff|]; auto.
  - assert (Hcons : (exists s1 s2, s = s1 ++ s2 /\ matches r1 (c :: s1) /\ matches r2 s2)
                    <-> matches (Seq (deriv c r1) r2) s).
    { split.
      - intros (s1 & s2 & -> & H1 & H2). constructor; [apply IHr1|]; assumption.
      - intros H. apply matches_seq_inv in H as (s1 & s2 & -> & H1 & H2).
        exists s1, s2. rewrite <- IHr1. auto. }
    split.
    + intros H.
      assert (H' : matches (Seq (deriv c r1) r2) s \/
                   (nullable r1 = true /\ matches (deriv c r2) s)).
      { destruct (nullable r1); [|auto].
        apply matches_alt_inv in H as [H | H]; auto. }
      destruct H' as [H' | [N H']].
      * apply Hcons in H' as (s1 & s2 & -> & H1 & H2).
        apply (m_seq _ _ (c :: s1) s2); assumption.
      * apply (m_seq _ _ [] (c :: s)); [apply nullable_matches | apply IHr2];
          assumption.
    + intros H. apply matches_seq_inv in H as (s1 & s2 & E & H1 & H2).
      destruct s1 as [|d s1]; simpl in E.
      * subst s2. apply nullable_matches in H1. rewrite H1.
        apply m_alt_r, IHr2. assumption.
      * injection E as <- ->.
        assert (H' : matches (Seq (deriv c r1) r2) (s1 ++ s2)).
        { apply Hcons. eauto. }
        destruct (nullable r1); [apply m_alt_l|]; assumption.
  - split.
    + intros H. apply matches_alt_inv in H as [H | H];
        [apply m_alt_l, IHr1 | apply m_alt_r, IHr2]; assumption.
    + intros H. apply matches_alt_inv in H as [H | H];
        [apply m_alt_l, IHr1 | apply m_alt_r, IHr2]; assumption.
  - split.
    + intros H. apply matches_seq_inv in H as (s1 & s2 & -> & H1 & H2).
      apply (m_star_app _ (c :: s1) s2); [apply IHr|]; assumption.
    + intros H. apply matches_star_cons_inv in H as (s1 & s2 & -> & H1 & H2).
      constructor; [apply IHr|]; assumption.
  - split.
    + intros H. apply m_opt_some, IHr. assumption.
    + intros H. apply matches_opt_inv in H as [H | H]; [discriminate|].
      apply IHr. assumption.
Qed.

Theorem test_matches r s : test r s = true <-> matches r s.
Proof.
  unfold test. revert r. induction s as [|c s IH]; intros r; simpl.
  - apply nullable_matches.
  - rewrite IH. apply deriv_matches.
Qed.

End Matcher.

(** ** What the three patterns accept *)

Section Patterns.

(** A starred single-character pattern accepts the strings made of the
    characters its body accepts. *)
Lemma star_single r (p : char -> bool) :
  (forall s, matches r s <-> exists c, s = [c] /\ p c = true) ->
  forall s, matches (Star r) s <-> forallb p s = true.
Proof.
  intros Hr s. split.
  - induction s as [|c s IH]; intros H; [reflexivity|].
    apply matches_star_cons_inv in H as (s1 & s2 & -> & H1 & H2).
    apply Hr in H1 as (d & E & Hd). injection E as -> ->.
    simpl. rewrite Hd. apply IH. assumption.
  - induction s as [|c s IH]; simpl; intros H; [constructor|].
    apply andb_true_iff in H as [Hc Hs].
    apply (m_star_app _ [c] s); [apply Hr; eauto | auto].
Qed.

Lemma matches_cls items s :
  matches (Cls items) s <-> exists c, s = [c] /\ in_cls items c = true.
Proof.
  split.
  - intros H. inversion H; subst. eauto.
  - intros (c & -> & H). constructor. assumption.
Qed.

Lemma matches_dot s :
  matches Dot s <-> exists c, s = [c] /\ negb (isLineTerminator c) = true.
Proof.
  split.
  - intros H. inversion H; subst. eexists. split; [reflexivity|].
    apply negb_true_iff. assumption.
  - intros (c & -> & H). constructor. apply negb_true_iff. assumption.
Qed.

Lemma matches_chr c s : matches (Chr c) s <-> s = [c].
Proof.
  split.
  - intros H. inversion H; subst. reflexivity.
  - intros ->. constructor.
Qed.

Lemma has_slash_In k : has_slash k = true <-> In slash k.
Proof.
  unfold has_slash. rewrite existsb_exists. split.
  - intros (c & Hc & E). apply N.eqb_eq in E as <-. assumption.
  - intros H. exists slash. split; [assumption | apply N.eqb_refl].
Qed.

Lemma has_line_terminator_app a b :
  has_line_terminator (a ++ b) = has_line_terminator a || has_line_terminator b.
Proof. apply existsb_app. Qed.

Lemma no_line_terminator_forallb k :
  forallb (fun c => negb (isLineTerminator c)) k = negb (has_line_terminator k).
Proof.
  induction k as [|c k IH]; simpl; [reflexivity|].
  rewrite IH, negb_orb. reflexivity.
Qed.

(** [PrefixPattern] accepts the keys that contain a "/" and no line
    terminator: [.] stops at a line terminator. *)
Theorem PrefixPattern_accepts k :
  test PrefixPattern k = has_slash k && negb (has_line_terminator k).
Proof.
  apply eq_true_iff_eq. rewrite test_matches, andb_true_iff, has_slash_In.
  unfold PrefixPattern. split.
  - intros H. apply matches_seq_inv in H as (a & s2 & -> & Ha & H).
    apply matches_seq_inv in H as (s & b & -> & Hs & Hb).
    apply matches_chr in Hs as ->.
    apply (star_single _ _ matches_dot) in Ha, Hb.
    rewrite no_line_terminator_forallb in Ha, Hb.
    split.
    + apply in_or_app. right. left. reflexivity.
    + rewrite !has_line_terminator_app, !negb_orb, Ha, Hb. reflexivity.
  - intros [Hin Hlt]. apply in_split in Hin as (a & b & ->).
    rewrite has_line_terminator_app, negb_orb in Hlt.
    apply andb_true_iff in Hlt as [Ha Hb].
    change (has_line_terminator (slash :: b)) with (has_line_terminator b) in Hb.
    constructor; [|apply (m_seq _ _ [slash] b); [constructor|]];
      apply (star_single _ _ matches_dot);
      rewrite no_line_terminator_forallb; assumption.
Qed.

Lemma alnum_alphanumeric c : in_cls alnum c = alphanumeric c.
Proof.
  unfold in_cls, alnum, alphanumeric, in_range. cbn [existsb in_item].
  rewrite orb_false_r, orb_assoc. reflexivity.
Qed.

Lemma name_chars_name_character c : in_cls name_chars c = name_character c.
Proof.
  unfold in_cls, name_chars, name_character, alphanumeric, in_range.
  cbn [existsb in_item].
  destruct (c =? ch "-")%N, (c =? ch "_")%N, (c =? ch ".")%N,
    (ch "A" <=? c)%N, (c <=? ch "Z")%N, (ch "a" <=? c)%N, (c <=? ch "z")%N,
    (ch "0" <=? c)%N, (c <=? ch "9")%N; reflexivity.
Qed.

Lemma matches_alnum s :
  matches (Cls alnum) s <-> exists c, s = [c] /\ alphanumeric c = true.
Proof.
  rewrite matches_cls. split; intros (c & -> & H); exists c;
    (split; [reflexivity|]); [rewrite <- alnum_alphanumeric
                             | rewrite alnum_alphanumeric]; assumption.
Qed.

Lemma matches_name_chars s :
  matches (Cls name_chars) s <-> exists c, s = [c] /\ name_character c = true.
Proof.
  rewrite matches_cls. split; intros (c & -> & H); exists c;
    (split; [reflexivity|]); [rewrite <- name_chars_name_character
                             | rewrite name_chars_name_character]; assumption.
Qed.

(** [labelKeyNamePattern] accepts exactly the strings of the shape the
    specification words; the empty string is not one of them. *)
Theorem labelKeyNamePattern_accepts s :
  test labelKeyNamePattern s = true <-> name_shape s.
Proof.
  rewrite test_matches. unfold labelKeyNamePattern, name_shape. split.
  - intros H. apply matches_seq_inv in H as (s1 & s2 & -> & H1 & H2).
    apply matches_alnum in H2 as (d & -> & Hd).
    apply matches_opt_inv in H1 as [-> | H1].
    + left. exists d. auto.
    + right. apply matches_seq_inv in H1 as (t1 & mid & -> & Hc & Hmid).
      apply matches_alnum in Hc as (c & -> & Hc).
      apply (star_single _ _ matches_name_chars) in Hmid.
      exists c, mid, d. auto.
  - intros [(c & -> & Hc) | (c & mid & d & -> & Hc & Hmid & Hd)].
    + apply (m_seq _ _ [] [c]); [constructor | apply matches_alnum; eauto].
    + apply (m_seq _ _ (c :: mid) [d]); [|apply matches_alnum; eauto].
      apply m_opt_some. apply (m_seq _ _ [c] mid); [apply matches_alnum; eauto|].
      apply (star_single _ _ matches_name_chars). assumption.
Qed.

Lemma name_shape_nil : ~ name_shape [].
Proof.
  intros [(c & E & _) | (c & mid & d & E & _)]; discriminate.
Qed.

End Patterns.

(** ** Searching and cutting strings *)

Section Strings.

Lemma js_length_zero s : (js_length s =? 0) = bool_decide (s = []).
Proof.
  unfold js_length. destruct s as [|c s]; [reflexivity|].
  rewrite bool_decide_eq_false_2 by discriminate.
  apply Z.eqb_neq. simpl length. lia.
Qed.

Lemma split_first c s :
  In c s -> s = before_first c s ++ c :: after_first c s.
Proof.
  induction s as [|d s IH]; simpl; intros H; [contradiction|].
  destruct (N.eqb_spec d c) as [-> | Hne]; [reflexivity|].
  destruct H as [H | H]; [congruence|].
  simpl. f_equal. apply IH. assumption.
Qed.

Lemma before_first_none c s : ~ In c s -> before_first c s = s.
Proof.
  induction s as [|d s IH]; simpl; intros H; [reflexivity|].
  destruct (N.eqb_spec d c) as [-> | Hne]; [tauto|].
  f_equal. apply IH. tauto.
Qed.

Lemma before_first_free c s : ~ In c (before_first c s).
Proof.
  induction s as [|d s IH]; simpl; [tauto|].
  destruct (N.eqb_spec d c) as [-> | Hne]; simpl; [tauto|].
  intros [H | H]; [congruence | tauto].
Qed.

Lemma indexOf_at_single c s i :
  In c s -> indexOf_at [c] s i = i + js_length (before_first c s).
Proof.
  unfold js_length. revert i. induction s as [|d s IH]; intros i H; [contradiction|].
  cbn [indexOf_at starts_with before_first]. rewrite andb_true_r, (N.eqb_sym c d).
  destruct (N.eqb_spec d c) as [-> | Hne]; [simpl; lia|].
  destruct H as [H | H]; [congruence|].
  rewrite IH by assumption. simpl length. lia.
Qed.

Lemma indexOf_at_absent c s i : ~ In c s -> indexOf_at [c] s i = -1.
Proof.
  revert i. induction s as [|d s IH]; intros i H; [reflexivity|].
  cbn [indexOf_at starts_with]. rewrite andb_true_r.
  destruct (N.eqb_spec c d) as [-> | Hne]; [simpl in H; tauto|].
  apply IH. simpl in H. tauto.
Qed.

(** [k.indexOf("/")] is the length of what stands before the first
    "/". *)
Lemma indexOf_slash k :
  has_slash k = true -> indexOf k (str "/") = js_length (before_first slash k).
Proof.
  intros H. apply has_slash_In in H.
  change (str "/") with [slash]. unfold indexOf.
  rewrite indexOf_at_single by assumption. lia.
Qed.

Lemma substring_front a b : substring (a ++ b) 0 (js_length a) = a.
Proof.
  unfold substring, js_length. rewrite length_app.
  replace (Z.to_nat _) with (length a) by lia.
  replace (Z.to_nat _) with 0%nat by lia.
  rewrite drop_0. apply take_app_length.
Qed.

Lemma substring_from_back a c b :
  substring_from (a ++ c :: b) (js_length a + 1) = b.
Proof.
  unfold substring_from, substring, js_length. rewrite length_app. simpl length.
  replace (Z.to_nat _) with (length b) by lia.
  replace (Z.to_nat _) with (length (a ++ [c])) by (rewrite length_app; simpl; lia).
  rewrite (cons_middle c a b), app_assoc, drop_app_length.
  apply firstn_all.
Qed.

(** Cutting a key at its first "/" gives its prefix and its name. *)
Lemma substring_prefix k :
  has_slash k = true ->
  substring k 0 (indexOf k (str "/")) = prefix_of k.
Proof.
  intros H. unfold prefix_of. rewrite indexOf_slash, H by assumption.
  apply has_slash_In in H.
  rewrite (split_first slash k H) at 1. apply substring_front.
Qed.

Lemma substring_name k :
  has_slash k = true ->
  substring_from k (indexOf k (str "/") + 1) = name_of k.
Proof.
  intros H. unfold name_of. rewrite indexOf_slash, H by assumption.
  apply has_slash_In in H.
  rewrite (split_first slash k H) at 1. apply substring_from_back.
Qed.

End Strings.

(** ** The store and the list *)

Section Store.

Implicit Types (h : gmap loc DeployLabel) (this : DeployLabelController).

Lemma alive_lookup h l : alive h l = true <-> is_Some (h !! l).
Proof.
  unfold alive. destruct (h !! l) as [o|]; split; intros H; eauto;
    [discriminate | destruct H; discriminate].
Qed.

Lemma obj_of_ref h l o : h !! l = Some o -> obj_of h (VRef l) = Ok o.
Proof. intros H. simpl. rewrite H. reflexivity. Qed.

Lemma fresh_unused h : h !! fresh (dom h) = None.
Proof. apply not_elem_of_dom, is_fresh. Qed.

Lemma addNewLabel_keeps this l o :
  heap this !! l = Some o -> heap (addNewLabel_ this) !! l = Some o.
Proof.
  intros H. simpl. rewrite lookup_insert_ne; [assumption|].
  intros E. rewrite <- E, fresh_unused in H. discriminate.
Qed.

Lemma addNewLabel_alive this l :
  alive (heap this) l = true -> alive (heap (addNewLabel_ this)) l = true.
Proof.
  rewrite !alive_lookup. intros [o H]. exists o.
  apply addNewLabel_keeps. assumption.
Qed.

Lemma addNewLabel_new this :
  heap (addNewLabel_ this) !! fresh (dom (heap this)) = Some new_DeployLabel.
Proof. simpl. apply lookup_insert_eq. Qed.

Lemma addNewLabel_wf this : wf this = true -> wf (addNewLabel_ this) = true.
Proof.
  unfold wf. rewrite !andb_true_iff. intros [Hl Hls]. split.
  - apply addNewLabel_alive. assumption.
  - cbn [labels addNewLabel_]. rewrite forallb_app. apply andb_true_iff. split.
    + rewrite forallb_forall in Hls |- *. intros l Hin.
      apply addNewLabel_alive, Hls. assumption.
    + cbn [forallb]. rewrite andb_true_r. apply alive_lookup.
      rewrite addNewLabel_new. eauto.
Qed.

Lemma get_index_last (a : list loc) l :
  last a = Some l -> get_index a (array_length a - 1) = VRef l.
Proof.
  rewrite last_lookup. intros H. unfold get_index, array_length.
  destruct a as [|x a]; [discriminate|]. simpl length in *.
  replace (_ <? 0) with false by (symmetry; apply Z.ltb_ge; lia).
  replace (Z.to_nat _) with (Nat.pred (S (length a))) by lia.
  rewrite H. reflexivity.
Qed.

Lemma last_is_Some (a : list loc) : a <> [] -> exists l, last a = Some l.
Proof.
  intros H. destruct (last a) as [l|] eqn:E; [eauto|].
  apply last_None in E. contradiction.
Qed.

Lemma last_alive this l :
  wf this = true -> last (labels this) = Some l -> alive (heap this) l = true.
Proof.
  unfold wf. intros H E. apply andb_true_iff in H as [_ H].
  rewrite forallb_forall in H. apply H.
  apply list_elem_of_In. apply last_Some_elem_of. assumption.
Qed.

Lemma isFilled_run this l o :
  heap this !! l = Some o -> isFilled_ this (VRef l) = Ok (filled o).
Proof.
  intros H. unfold isFilled_, filled. rewrite (obj_of_ref _ _ _ H). run.
  rewrite !js_length_zero. reflexivity.
Qed.

(** On a list that is not empty [addIfNeeded_] returns, and pushes a
    blank entry exactly when the last entry is filled. *)
Lemma addIfNeeded_run this l o :
  last (labels this) = Some l -> heap this !! l = Some o ->
  addIfNeeded_ this = Ok (if filled o then addNewLabel_ this else this).
Proof.
  intros Hl Ho. unfold addIfNeeded_.
  rewrite (get_index_last _ _ Hl), (isFilled_run _ _ _ Ho). reflexivity.
Qed.

(** On the empty list the read of the last entry is [undefined], and
    [isFilled_] throws on its first property read. *)
Lemma addIfNeeded_empty this :
  labels this = [] -> addIfNeeded_ this = Throw TypeError.
Proof. intros H. unfold addIfNeeded_. rewrite H. reflexivity. Qed.

Lemma addIfNeeded_wf this this' :
  wf this = true -> addIfNeeded_ this = Ok this' -> wf this' = true.
Proof.
  intros Hwf. unfold addIfNeeded_.
  destruct (isFilled_ _ _) as [[]| |]; simpl; intros E; try discriminate;
    injection E as <-; [apply addNewLabel_wf|]; assumption.
Qed.

End Store.

(** ** Running [validateKey_] and [check] *)

Section Validation.

Implicit Types (this : DeployLabelController) (cur : DeployLabel).

Lemma str_eqb_key h k l o :
  h !! l = Some o -> str_eqb (key o) k = has_key h k l.
Proof. intros H. unfold has_key, str_eqb. rewrite H. reflexivity. Qed.

Lemma count_duplicate_run this cur l o d :
  heap this !! label this = Some cur -> heap this !! l = Some o ->
  count_duplicate this d l =
    Ok (d + if bool_decide (key cur = []) then 0
            else if has_key (heap this) (key cur) l then 1 else 0).
Proof.
  intros Hcur Ho. unfold count_duplicate.
  rewrite (obj_of_ref _ _ _ Hcur). run. rewrite js_length_zero.
  destruct (bool_decide (key cur = [])); cbn [negb]; run.
  - f_equal. lia.
  - rewrite (obj_of_ref _ _ _ Ho). run.
    rewrite (str_eqb_key _ _ _ _ Ho). destruct (has_key _ _ _); f_equal; lia.
Qed.

Lemma forEach_count_duplicate this cur ls d :
  heap this !! label this = Some cur ->
  forallb (alive (heap this)) ls = true ->
  forEach (count_duplicate this) ls d =
    Ok (d + if bool_decide (key cur = []) then 0
            else occurrences (heap this) (key cur) ls).
Proof.
  intros Hcur. revert d. induction ls as [|l ls IH]; intros d Hls.
  - simpl. f_equal. destruct (bool_decide _); lia.
  - cbn [forallb] in Hls. apply andb_true_iff in Hls as [Hl Hls].
    apply alive_lookup in Hl as [o Ho].
    cbn [forEach]. rewrite (count_duplicate_run _ _ _ _ _ Hcur Ho). run.
    rewrite IH by assumption. cbn [occurrences]. f_equal.
    destruct (bool_decide _); lia.
Qed.

Lemma isKeyDuplicated_run this cur :
  wf this = true -> heap this !! label this = Some cur ->
  isKeyDuplicated_ this = Ok (1 <? duplications this (key cur)).
Proof.
  intros Hwf Hcur. unfold wf in Hwf. apply andb_true_iff in Hwf as [_ Hls].
  unfold isKeyDuplicated_.
  rewrite (forEach_count_duplicate _ _ _ _ Hcur Hls). run.
  unfold duplications. rewrite Z.add_0_l. reflexivity.
Qed.

Lemma validateKey_run this cur (form : Form.FormController) :
  wf this = true -> heap this !! label this = Some cur ->
  validateKey_ this (Some form) =
    Ok (Some {| Form.key := validated this (key cur) (Form.key form) |}).
Proof.
  intros Hwf Hcur. unfold validateKey_.
  rewrite (obj_of_ref _ _ _ Hcur). run.
  rewrite (isKeyDuplicated_run _ _ Hwf Hcur).
  unfold matchesKeyPrefixPattern_, matchesKeyNamePattern_,
    matchesKeyPrefixLength_, matchesKeyNameLength_.
  rewrite (obj_of_ref _ _ _ Hcur).
  unfold validated, labelPrefix, labelName, slashPosition, isPrefixed.
  destruct (test PrefixPattern (key cur)); run; reflexivity.
Qed.

Lemma validateKey_skip this :
  validateKey_ this None = Ok None.
Proof. reflexivity. Qed.

Lemma wf_label this :
  wf this = true -> exists cur, heap this !! label this = Some cur.
Proof.
  unfold wf. intros H. apply andb_true_iff in H as [H _].
  apply alive_lookup in H. exact H.
Qed.

Lemma checked_wf this o : wf this = true -> wf (checked this o) = true.
Proof.
  intros H. unfold checked. destruct (filled o); [apply addNewLabel_wf|]; assumption.
Qed.

Lemma checked_keeps this o l x :
  heap this !! l = Some x -> heap (checked this o) !! l = Some x.
Proof.
  intros H. unfold checked. destruct (filled o); [apply addNewLabel_keeps|]; assumption.
Qed.

Lemma checked_label this o : label (checked this o) = label this.
Proof. unfold checked. destruct (filled o); reflexivity. Qed.

(** [check] with a form, on a list that is not empty. *)
Lemma check_run this (form : Form.FormController) l o cur :
  wf this = true ->
  last (labels this) = Some l -> heap this !! l = Some o ->
  heap this !! label this = Some cur ->
  check this (Some form) =
    Ok (checked this o,
        Some {| Form.key := validated (checked this o) (key cur) (Form.key form) |}).
Proof.
  intros Hwf Hl Ho Hcur. unfold check.
  rewrite (addIfNeeded_run _ _ _ Hl Ho). run. fold (checked this o).
  rewrite (validateKey_run (checked this o) cur).
  - reflexivity.
  - apply checked_wf. assumption.
  - rewrite checked_label. apply checked_keeps. assumption.
Qed.

(** [check] without a form, on a list that is not empty. *)
Lemma check_run_no_form this l o :
  last (labels this) = Some l -> heap this !! l = Some o ->
  check this None = Ok (checked this o, None).
Proof.
  intros Hl Ho. unfold check.
  rewrite (addIfNeeded_run _ _ _ Hl Ho). reflexivity.
Qed.

(** The blank entry does not add to the count of a key that is not
    empty, and a key that is empty is never counted. *)
Lemma duplications_checked this o k :
  duplications (checked this o) k = duplications this k.
Proof.
  unfold duplications, checked.
  destruct (bool_decide (k = [])) eqn:Ek; [reflexivity|].
  apply bool_decide_eq_false in Ek.
  destruct (filled o); [|reflexivity].
  cbn [labels heap addNewLabel_].
  assert (Hfresh := fresh_unused (heap this)).
  set (n := fresh (dom (heap this))) in *.
  assert (Happ : forall h a b, occurrences h k (a ++ b)
                               = occurrences h k a + occurrences h k b).
  { intros h a b. induction a as [|x a IH]; cbn [occurrences app]; lia. }
  assert (Hnew : has_key (<[n:=new_DeployLabel]> (heap this)) k n = false).
  { unfold has_key. rewrite lookup_insert_eq. cbn [key new_DeployLabel].
    apply bool_decide_eq_false_2. congruence. }
  rewrite Happ. cbn [occurrences]. rewrite Hnew.
  (* the entries that carry the key are the old ones *)
  assert (Hsame : occurrences (<[n:=new_DeployLabel]> (heap this)) k (labels this)
                  = occurrences (heap this) k (labels this)).
  { induction (labels this) as [|x ls IH]; cbn [occurrences]; [reflexivity|].
    rewrite IH. f_equal. unfold has_key.
    destruct (decide (n = x)) as [<- | Hne].
    - rewrite lookup_insert_eq, Hfresh. cbn [key new_DeployLabel].
      rewrite bool_decide_eq_false_2 by congruence. reflexivity.
    - rewrite lookup_insert_ne by assumption. reflexivity. }
  rewrite Hsame. lia.
Qed.

End Validation.

(** ** How the key is split *)

Section Split.

(** A key is taken as prefixed when it has a "/" and no line
    terminator. *)
Lemma isPrefixed_accepts k :
  isPrefixed k = has_slash k && negb (has_line_terminator k).
Proof. apply PrefixPattern_accepts. Qed.

Lemma isPrefixed_no_slash k : has_slash k = false -> isPrefixed k = false.
Proof. intros H. rewrite isPrefixed_accepts, H. reflexivity. Qed.

Lemma isPrefixed_slash k :
  has_slash k && has_line_terminator k = false -> isPrefixed k = has_slash k.
Proof.
  intros H. rewrite isPrefixed_accepts.
  destruct (has_slash k), (has_line_terminator k); try reflexivity; discriminate.
Qed.

(** Apart from the keys with both a "/" and a line terminator, the name
    and the prefix the methods compute are those of the specification. *)
Lemma labelName_name_of k :
  has_slash k && has_line_terminator k = false -> labelName k = name_of k.
Proof.
  intros H. unfold labelName, slashPosition. rewrite (isPrefixed_slash _ H).
  destruct (has_slash k) eqn:Hs.
  - apply substring_name. assumption.
  - unfold name_of. rewrite Hs. reflexivity.
Qed.

Lemma labelPrefix_prefix_of k :
  has_slash k && has_line_terminator k = false -> labelPrefix k [] = prefix_of k.
Proof.
  intros H. unfold labelPrefix, slashPosition. rewrite (isPrefixed_slash _ H).
  destruct (has_slash k) eqn:Hs.
  - apply substring_prefix. assumption.
  - unfold prefix_of. rewrite Hs. reflexivity.
Qed.

Lemma labelPrefix_no_slash k otherwise :
  has_slash k = false -> labelPrefix k otherwise = otherwise.
Proof. intros H. unfold labelPrefix. rewrite isPrefixed_no_slash; auto. Qed.

End Split.

(** ** Reading the flags *)

Section Flags.

Implicit Types (this : DeployLabelController) (elem : NgModelController).

Lemma validated_unique this k elem :
  validated this k elem !! "unique" = Some (negb (1 <? duplications this k)).
Proof. unfold validated, setValidity. by simplify_map_eq. Qed.

Lemma validated_prefixPattern this k elem :
  validated this k elem !! "prefixPattern"
  = Some (test labelKeyPrefixPattern (labelPrefix k (str "valid-pattern"))).
Proof. unfold validated, setValidity. by simplify_map_eq. Qed.

Lemma validated_namePattern this k elem :
  validated this k elem !! "namePattern"
  = Some (test labelKeyNamePattern (labelName k)).
Proof. unfold validated, setValidity. by simplify_map_eq. Qed.

Lemma validated_prefixLength this k elem :
  validated this k elem !! "prefixLength"
  = Some (js_length (labelPrefix k []) <=? 253).
Proof. unfold validated, setValidity. by simplify_map_eq. Qed.

Lemma validated_nameLength this k elem :
  validated this k elem !! "nameLength" = Some (js_length (labelName k) <=? 63).
Proof. unfold validated, setValidity. by simplify_map_eq. Qed.

(** On a list that is not empty, with every reference alive, [check]
    returns. *)
Lemma check_returns this (form : option Form.FormController) :
  wf this = true -> labels this <> [] ->
  exists l o, last (labels this) = Some l /\ heap this !! l = Some o /\
    exists form', check this form = Ok (checked this o, form').
Proof.
  intros Hwf Hne. destruct (last_is_Some _ Hne) as [l Hl].
  assert (Ha := last_alive _ _ Hwf Hl). apply alive_lookup in Ha as [o Ho].
  exists l, o. split; [assumption|]. split; [assumption|].
  destruct form as [form|].
  - destruct (wf_label _ Hwf) as [cur Hcur].
    rewrite (check_run _ _ _ _ _ Hwf Hl Ho Hcur). eauto.
  - rewrite (check_run_no_form _ _ _ Hl Ho). eauto.
Qed.

(** The same with a form: the flags are those of [validated]. *)
Lemma check_validated this (form : Form.FormController) cur :
  wf this = true -> labels this <> [] ->
  heap this !! label this = Some cur ->
  exists o,
    check this (Some form) =
      Ok (checked this o,
          Some {| Form.key :=
                    validated (checked this o) (key cur) (Form.key form) |}).
Proof.
  intros Hwf Hne Hcur. destruct (last_is_Some _ Hne) as [l Hl].
  assert (Ha := last_alive _ _ Hwf Hl). apply alive_lookup in Ha as [o Ho].
  exists o. apply (check_run _ _ _ _ _ Hwf Hl Ho Hcur).
Qed.

End Flags.

(** ** Searching and cutting the list *)

Section Arrays.

Implicit Types (a before after : list loc) (x : loc).

Lemma array_indexOf_at_absent a x i : x ∉ a -> array_indexOf_at a x i = -1.
Proof.
  revert i. induction a as [|y a IH]; intros i H; [reflexivity|].
  cbn [array_indexOf_at]. apply not_elem_of_cons in H as [Hne H].
  rewrite bool_decide_eq_false_2 by congruence. apply IH. assumption.
Qed.

Lemma array_indexOf_at_first before after x i :
  x ∉ before ->
  array_indexOf_at (before ++ x :: after) x i = i + Z.of_nat (length before).
Proof.
  revert i. induction before as [|y before IH]; intros i H; cbn [app array_indexOf_at].
  - rewrite bool_decide_eq_true_2 by reflexivity. simpl. lia.
  - apply not_elem_of_cons in H as [Hne H].
    rewrite bool_decide_eq_false_2 by congruence.
    rewrite IH by assumption. simpl length. lia.
Qed.

Lemma splice_one before after x :
  splice (before ++ x :: after) (Z.of_nat (length before)) 1 = before ++ after.
Proof.
  unfold splice, array_length. rewrite length_app. simpl length.
  replace (_ <? 0) with false by (symmetry; apply Z.ltb_ge; lia).
  replace (Z.to_nat (Z.min _ _)) with (length before) by lia.
  replace (Z.to_nat _) with (length (before ++ [x]))
    by (rewrite length_app; simpl length; lia).
  rewrite take_app_length.
  rewrite (cons_middle x before after), app_assoc, drop_app_length. reflexivity.
Qed.

Lemma remove_first_absent a x : x ∉ a -> remove_first x a = a.
Proof.
  induction a as [|y a IH]; intros H; [reflexivity|].
  cbn [remove_first]. apply not_elem_of_cons in H as [Hne H].
  rewrite bool_decide_eq_false_2 by congruence. f_equal. apply IH. assumption.
Qed.

Lemma remove_first_first before after x :
  x ∉ before -> remove_first x (before ++ x :: after) = before ++ after.
Proof.
  induction before as [|y before IH]; intros H; cbn [app remove_first].
  - rewrite bool_decide_eq_true_2 by reflexivity. reflexivity.
  - apply not_elem_of_cons in H as [Hne H].
    rewrite bool_decide_eq_false_2 by congruence. f_equal. apply IH. assumption.
Qed.

Lemma deleteLabel_absent this :
  label this ∉ labels this -> deleteLabel this = this.
Proof.
  intros H. unfold deleteLabel, array_indexOf.
  rewrite array_indexOf_at_absent by assumption. reflexivity.
Qed.

Lemma deleteLabel_first this before after :
  labels this = before ++ label this :: after -> label this ∉ before ->
  deleteLabel this =
    {| heap := heap this; labels := before ++ after; label := label this |}.
Proof.
  intros E H. unfold deleteLabel, array_indexOf. rewrite E.
  rewrite array_indexOf_at_first by assumption. rewrite Z.add_0_l.
  replace (-1 <? _) with true by (symmetry; apply Z.ltb_lt; lia).
  rewrite splice_one. reflexivity.
Qed.

End Arrays.

(** * The properties of the specification *)

Section KeyFlags.

Implicit Types (this : DeployLabelController) (cur : DeployLabel).

Lemma flag_check this (form : Form.FormController) cur name :
  wf this = true -> labels this <> [] ->
  heap this !! label this = Some cur ->
  exists o, flag name (check this (Some form))
            = validated (checked this o) (key cur) (Form.key form) !! name.
Proof.
  intros Hwf Hne Hcur.
  destruct (check_validated _ form _ Hwf Hne Hcur) as [o Ho].
  exists o. rewrite Ho. reflexivity.
Qed.

(** C1, as stated, fails on the blank key: its name is empty, which the
    specification lets pass, and [check] sets [namePattern] to false. *)
Lemma C1_counterexample :
  flag "namePattern" (check (rows [entry [] []] 0%nat) (Some empty_form))
    = Some false /\
  ~ (flag "namePattern" (check (rows [entry [] []] 0%nat) (Some empty_form))
       = Some true
     <-> (name_of [] = [] \/ name_shape (name_of []))).
Proof.
  assert (H : flag "namePattern"
                (check (rows [entry [] []] 0%nat) (Some empty_form)) = Some false)
    by (vm_compute; reflexivity).
  split; [exact H|]. rewrite H. intros [_ Hiff].
  specialize (Hiff (or_introl eq_refl)). discriminate.
Qed.

(** C1 (amended): for every key that does not hold both a "/" and a line
    terminator, the [namePattern] flag set by [check] is true exactly
    when the name (what follows the first "/", or the whole key when it
    has no "/") is one alphanumeric character, optionally followed by
    alphanumerics, "-", "_" and ".", and ends in an alphanumeric
    character; the empty name does not pass. *)
Theorem C1_namePattern this (form : Form.FormController) cur :
  wf this = true -> labels this <> [] ->
  heap this !! label this = Some cur ->
  has_slash (key cur) && has_line_terminator (key cur) = false ->
  exists b, flag "namePattern" (check this (Some form)) = Some b /\
            (b = true <-> name_shape (name_of (key cur))) /\
            (name_of (key cur) = [] -> b = false).
Proof.
  intros Hwf Hne Hcur Hk.
  destruct (flag_check _ form _ "namePattern" Hwf Hne Hcur) as [o ->].
  rewrite validated_namePattern, (labelName_name_of _ Hk).
  eexists. split; [reflexivity|]. split.
  - apply labelKeyNamePattern_accepts.
  - intros E. rewrite E. reflexivity.
Qed.

(** The key "name$": [namePattern] is false. *)
Lemma C1_namePattern_witness :
  flag "namePattern"
    (check (rows [entry (str "name$") []] 0%nat) (Some empty_form)) = Some false /\
  ~ name_shape (name_of (str "name$")).
Proof.
  destruct (C1_namePattern (rows [entry (str "name$") []] 0%nat) empty_form
              (entry (str "name$") []) eq_refl ltac:(discriminate) eq_refl eq_refl)
    as (b & Hb & Hiff & _).
  assert (E : b = false) by (vm_compute in Hb; congruence).
  subst b. split; [exact Hb|].
  intros H. apply Hiff in H. discriminate.
Defined.

(** C8: for every key without a "/", the [prefixPattern] flag set by
    [check] is true. *)
Theorem C8_prefixPattern_no_slash this (form : Form.FormController) cur :
  wf this = true -> labels this <> [] ->
  heap this !! label this = Some cur ->
  has_slash (key cur) = false ->
  flag "prefixPattern" (check this (Some form)) = Some true.
Proof.
  intros Hwf Hne Hcur Hk.
  destruct (flag_check _ form _ "prefixPattern" Hwf Hne Hcur) as [o ->].
  rewrite validated_prefixPattern, (labelPrefix_no_slash _ _ Hk).
  reflexivity.
Qed.

Lemma C8_prefixPattern_no_slash_witness :
  flag "prefixPattern"
    (check (rows [entry (str "BAD_NAME$") (str "v")] 0%nat) (Some empty_form))
  = Some true.
Proof.
  apply (C8_prefixPattern_no_slash _ empty_form (entry (str "BAD_NAME$") (str "v")));
    [reflexivity | discriminate | reflexivity | reflexivity].
Defined.

Lemma duplications_duplicated this k :
  (1 <? duplications this k) = duplicated (heap this) k (labels this).
Proof.
  unfold duplicated, duplications.
  destruct (bool_decide (k = [])); cbn [negb andb]; [reflexivity|].
  apply eq_true_iff_eq. rewrite Z.ltb_lt, Z.leb_le. lia.
Qed.

(** C4: [isKeyDuplicated_] answers whether two or more entries of the
    list, the entry at hand among them when it is on the list, have its
    key and that key is not empty; the [unique] flag set by [check] is
    true unless that is so. An empty key is never counted. *)
Theorem C4_unique this (form : Form.FormController) cur :
  wf this = true ->
  heap this !! label this = Some cur ->
  isKeyDuplicated_ this = Ok (duplicated (heap this) (key cur) (labels this)) /\
  (labels this <> [] ->
   flag "unique" (check this (Some form))
   = Some (negb (duplicated (heap this) (key cur) (labels this)))).
Proof.
  intros Hwf Hcur. split.
  - rewrite (isKeyDuplicated_run _ _ Hwf Hcur), duplications_duplicated.
    reflexivity.
  - intros Hne.
    destruct (flag_check _ form _ "unique" Hwf Hne Hcur) as [o ->].
    rewrite validated_unique, duplications_checked, duplications_duplicated.
    reflexivity.
Qed.

End KeyFlags.

Section KeyFlagsOnSamples.

(** The lists of the specification: with two rows of key "a" and a blank
    row, [unique] is false on either "a" row; with rows "a" and "b" it is
    true on both. *)
Lemma C4_unique_witness :
  let a := entry (str "a") [] in
  let b := entry (str "b") (str "v") in
  let blank := entry [] [] in
  flag "unique" (check (rows [a; a; blank] 0%nat) (Some empty_form)) = Some false /\
  flag "unique" (check (rows [a; a; blank] 1%nat) (Some empty_form)) = Some false /\
  flag "unique" (check (rows [a; b] 0%nat) (Some empty_form)) = Some true /\
  flag "unique" (check (rows [a; b] 1%nat) (Some empty_form)) = Some true.
Proof.
  intros a b blank. split; [|split; [|split]].
  - rewrite (proj2 (C4_unique (rows [a; a; blank] 0%nat) empty_form a eq_refl eq_refl));
      [reflexivity | discriminate].
  - rewrite (proj2 (C4_unique (rows [a; a; blank] 1%nat) empty_form a eq_refl eq_refl));
      [reflexivity | discriminate].
  - rewrite (proj2 (C4_unique (rows [a; b] 0%nat) empty_form a eq_refl eq_refl));
      [reflexivity | discriminate].
  - rewrite (proj2 (C4_unique (rows [a; b] 1%nat) empty_form b eq_refl eq_refl));
      [reflexivity | discriminate].
Defined.

(** C3 on the key LF "/" "b", which has a "/": [PrefixPattern] rejects
    it, since [.] does not match the line feed, and the key is taken as
    not prefixed. [prefixPattern] is then true although the prefix, the
    line feed, does not match the prefix pattern, and [namePattern] is
    false although the name "b" matches the name pattern. The same
    happens with the line separator in the name, as in "a/b" LS. *)
Theorem C3_line_terminator_key :
  let k := LF ++ str "/b" in
  let r := check (rows [entry k []] 0%nat) (Some empty_form) in
  has_slash k = true /\ prefix_of k = LF /\ name_of k = str "b" /\
  isPrefixed k = false /\
  flag "prefixPattern" r = Some true /\
  test labelKeyPrefixPattern (prefix_of k) = false /\
  flag "namePattern" r = Some false /\
  test labelKeyNamePattern (name_of k) = true /\
  has_slash (str "a/b" ++ LS) = true /\ isPrefixed (str "a/b" ++ LS) = false.
Proof. vm_compute. repeat split. Qed.

(** C9 on two keys with a "/" and a line feed, which are taken as not
    prefixed: a prefix of 254 characters passes [prefixLength], and a
    name of one character fails [nameLength] because the whole key of 66
    characters is measured. *)
Theorem C9_line_terminator_key :
  let k1 := repeat (ch "a") 254 ++ str "/" ++ LF in
  let k2 := repeat (ch "a") 63 ++ LF ++ str "/b" in
  js_length (prefix_of k1) = 254 /\
  flag "prefixLength" (check (rows [entry k1 []] 0%nat) (Some empty_form))
    = Some true /\
  js_length (name_of k2) = 1 /\
  flag "nameLength" (check (rows [entry k2 []] 0%nat) (Some empty_form))
    = Some false.
Proof. vm_compute. repeat split. Qed.

End KeyFlagsOnSamples.

Section PlainKeys.

Implicit Types (this : DeployLabelController) (cur : DeployLabel).

(** On the keys that do not hold both a "/" and a line terminator, the
    two length flags measure the prefix and the name of the key, with
    the bounds 253 and 63. *)
Lemma length_flags_plain_key this (form : Form.FormController) cur :
  wf this = true -> labels this <> [] ->
  heap this !! label this = Some cur ->
  has_slash (key cur) && has_line_terminator (key cur) = false ->
  flag "prefixLength" (check this (Some form))
    = Some (js_length (prefix_of (key cur)) <=? 253) /\
  flag "nameLength" (check this (Some form))
    = Some (js_length (name_of (key cur)) <=? 63).
Proof.
  intros Hwf Hne Hcur Hk. split.
  - destruct (flag_check _ form _ "prefixLength" Hwf Hne Hcur) as [o ->].
    rewrite validated_prefixLength, (labelPrefix_prefix_of _ Hk). reflexivity.
  - destruct (flag_check _ form _ "nameLength" Hwf Hne Hcur) as [o ->].
    rewrite validated_nameLength, (labelName_name_of _ Hk). reflexivity.
Qed.

(** On the same keys the prefix pattern is tried on the prefix of a key
    with a "/". *)
Lemma prefixPattern_plain_key this (form : Form.FormController) cur :
  wf this = true -> labels this <> [] ->
  heap this !! label this = Some cur ->
  has_slash (key cur) = true -> has_line_terminator (key cur) = false ->
  flag "prefixPattern" (check this (Some form))
    = Some (test labelKeyPrefixPattern (prefix_of (key cur))).
Proof.
  intros Hwf Hne Hcur Hs Hlt.
  destruct (flag_check _ form _ "prefixPattern" Hwf Hne Hcur) as [o ->].
  rewrite validated_prefixPattern. f_equal. f_equal.
  unfold labelPrefix, slashPosition.
  rewrite isPrefixed_accepts, Hs, Hlt. cbn [negb andb].
  rewrite substring_prefix by assumption. reflexivity.
Qed.

End PlainKeys.

Section ListShape.

Implicit Types (this : DeployLabelController) (o cur : DeployLabel).

Lemma filled_true o : filled o = true <-> key o <> [] /\ value o tt <> [].
Proof.
  unfold filled. rewrite andb_true_iff, !negb_true_iff, !bool_decide_eq_false.
  reflexivity.
Qed.

Lemma filled_false o : filled o = false <-> key o = [] \/ value o tt = [].
Proof.
  unfold filled. rewrite andb_false_iff, !negb_false_iff, !bool_decide_eq_true.
  reflexivity.
Qed.

(** C2, as stated, fails on the empty list: the read of the last entry
    gives [undefined] and [isFilled_] throws a [TypeError], with a form
    and without one. *)
Lemma C2_counterexample :
  let this := {| heap := {[ 0%nat := entry (str "a") (str "v") ]};
                 labels := [];
                 label := 0%nat |} in
  wf this = true /\
  check this None = Throw TypeError /\
  check this (Some empty_form) = Throw TypeError.
Proof. vm_compute. repeat split. Qed.

(** C2 (amended): on every list that is not empty [check] returns
    without an exception, with a form and without one; with a form each
    of the five flags is set to a boolean. *)
Theorem C2_check_returns this (form : option Form.FormController) :
  wf this = true -> labels this <> [] ->
  exists this' form',
    check this form = Ok (this', form') /\
    (is_Some form ->
     forall name,
       name ∈ ["unique"; "prefixPattern"; "namePattern"; "prefixLength";
               "nameLength"] ->
       is_Some (flag name (check this form))).
Proof.
  intros Hwf Hne.
  destruct (check_returns _ form Hwf Hne) as (l & o & _ & _ & form' & Hc).
  exists (checked this o), form'. split; [assumption|].
  intros [f ->] name Hname. destruct (wf_label _ Hwf) as [cur Hcur].
  destruct (flag_check _ f _ name Hwf Hne Hcur) as [o' ->].
  repeat (apply elem_of_cons in Hname as [-> | Hname]).
  - rewrite validated_unique. eauto.
  - rewrite validated_prefixPattern. eauto.
  - rewrite validated_namePattern. eauto.
  - rewrite validated_prefixLength. eauto.
  - rewrite validated_nameLength. eauto.
  - apply elem_of_nil in Hname. contradiction.
Qed.

Lemma C2_check_returns_witness :
  exists this' form',
    check (rows [entry (str "a/b$") (str "v")] 0%nat) (Some empty_form)
    = Ok (this', form') /\
    is_Some (flag "namePattern"
               (check (rows [entry (str "a/b$") (str "v")] 0%nat)
                  (Some empty_form))).
Proof.
  destruct (C2_check_returns (rows [entry (str "a/b$") (str "v")] 0%nat)
              (Some empty_form) eq_refl ltac:(discriminate))
    as (this' & form' & Hc & Hflags).
  exists this', form'. split; [exact Hc|].
  apply Hflags; [eexists; reflexivity|].
  apply elem_of_cons. right. apply elem_of_cons. right.
  apply elem_of_cons. left. reflexivity.
Defined.

(** C5: on a list that is not empty, if the last entry is filled [check]
    appends one new blank entry (empty key, empty value, editable) and
    the list is longer by one; if its key or its value is empty the list
    is as it was. *)
Theorem C5_append this (form : option Form.FormController) l o :
  wf this = true ->
  last (labels this) = Some l -> heap this !! l = Some o ->
  exists this' form',
    check this form = Ok (this', form') /\
    (key o <> [] -> value o tt <> [] ->
     exists l' o',
       labels this' = labels this ++ [l'] /\
       heap this !! l' = None /\
       heap this' !! l' = Some o' /\
       key o' = [] /\ value o' tt = [] /\ editable o' = true /\
       length (labels this') = S (length (labels this))) /\
    (key o = [] \/ value o tt = [] ->
     labels this' = labels this /\
     length (labels this') = length (labels this)).
Proof.
  intros Hwf Hl Ho.
  assert (Hc : exists form', check this form = Ok (checked this o, form')).
  { destruct form as [f|].
    - destruct (wf_label _ Hwf) as [cur Hcur].
      rewrite (check_run _ _ _ _ _ Hwf Hl Ho Hcur). eauto.
    - rewrite (check_run_no_form _ _ _ Hl Ho). eauto. }
  destruct Hc as [form' Hc]. exists (checked this o), form'.
  split; [assumption|]. unfold checked. split.
  - intros Hk Hv. rewrite (proj2 (filled_true o)) by auto.
    exists (fresh (dom (heap this))), new_DeployLabel.
    split; [reflexivity|]. split; [apply fresh_unused|].
    split; [apply addNewLabel_new|].
    cbn [labels addNewLabel_]. rewrite length_app. simpl.
    repeat split. lia.
  - intros H. rewrite (proj2 (filled_false o)) by assumption. auto.
Qed.

Lemma C5_append_witness :
  (exists this' form',
      check (rows [entry (str "k") (str "v")] 0%nat) None = Ok (this', form') /\
      length (labels this') = 2%nat) /\
  (exists this' form',
      check (rows [entry (str "k") []] 0%nat) (Some empty_form)
      = Ok (this', form') /\
      length (labels this') = 1%nat).
Proof.
  split.
  - destruct (C5_append (rows [entry (str "k") (str "v")] 0%nat) None 0%nat
                (entry (str "k") (str "v")) eq_refl eq_refl eq_refl)
      as (this' & form' & Hc & Hgrow & _).
    exists this', form'. split; [exact Hc|].
    destruct Hgrow as (l' & o' & _ & _ & _ & _ & _ & _ & Hlen);
      [discriminate | discriminate | exact Hlen].
  - destruct (C5_append (rows [entry (str "k") []] 0%nat) (Some empty_form) 0%nat
                (entry (str "k") []) eq_refl eq_refl eq_refl)
      as (this' & form' & Hc & _ & Hsame).
    exists this', form'. split; [exact Hc|].
    destruct Hsame as [_ Hlen]; [right; reflexivity | exact Hlen].
Defined.

(** C10: on a list that is not empty [check], with a form or without
    one, leaves every entry in its place and every label object as it
    was; the list can only gain one entry at its end. *)
Theorem C10_frame this (form : option Form.FormController) :
  wf this = true -> labels this <> [] ->
  exists this' form',
    check this form = Ok (this', form') /\
    (exists added,
        labels this' = labels this ++ added /\ (length added <= 1)%nat) /\
    (forall l o, heap this !! l = Some o -> heap this' !! l = Some o) /\
    label this' = label this.
Proof.
  intros Hwf Hne.
  destruct (check_returns _ form Hwf Hne) as (l & o & _ & _ & form' & Hc).
  exists (checked this o), form'. split; [assumption|]. split; [|split].
  - unfold checked. destruct (filled o).
    + exists [fresh (dom (heap this))]. split; [reflexivity | simpl; lia].
    + exists []. split; [symmetry; apply app_nil_r | simpl; lia].
  - intros l' o' H. apply checked_keeps. assumption.
  - apply checked_label.
Qed.

Lemma C10_frame_witness :
  exists this' form',
    check (rows [entry (str "a") []; entry (str "k") (str "v")] 0%nat)
      (Some empty_form) = Ok (this', form') /\
    heap this' !! 0%nat = Some (entry (str "a") []) /\
    heap this' !! 1%nat = Some (entry (str "k") (str "v")) /\
    label this' = 0%nat.
Proof.
  destruct (C10_frame (rows [entry (str "a") []; entry (str "k") (str "v")] 0%nat)
              (Some empty_form) eq_refl ltac:(discriminate))
    as (this' & form' & Hc & _ & Hkeep & Hlabel).
  exists this', form'. split; [exact Hc|]. split; [|split].
  - apply Hkeep. reflexivity.
  - apply Hkeep. reflexivity.
  - exact Hlabel.
Defined.

End ListShape.

Section Rows.

Implicit Types (this : DeployLabelController) (cur : DeployLabel).

(** C6: on a list that is not empty [isRemovable] is true exactly when
    the entry at hand is editable and is not the very object at the end
    of the list; for the last entry it is false whatever [editable]
    is. *)
Theorem C6_isRemovable this cur l :
  heap this !! label this = Some cur ->
  last (labels this) = Some l ->
  exists b,
    isRemovable this = Ok b /\
    (b = true <-> editable cur = true /\ label this <> l) /\
    (label this = l -> b = false).
Proof.
  intros Hcur Hl. unfold isRemovable.
  rewrite (get_index_last _ _ Hl), (obj_of_ref _ _ _ Hcur). run.
  eexists. split; [reflexivity|]. cbn [val_eqb]. split.
  - rewrite andb_true_iff, negb_true_iff, bool_decide_eq_false. reflexivity.
  - intros E. rewrite bool_decide_eq_true_2 by assumption.
    apply andb_false_r.
Qed.

Lemma C6_isRemovable_witness :
  isRemovable (rows [entry (str "a") (str "v"); entry [] []] 0%nat) = Ok true /\
  isRemovable (rows [entry (str "a") (str "v"); entry [] []] 1%nat) = Ok false.
Proof.
  split.
  - destruct (C6_isRemovable
                (rows [entry (str "a") (str "v"); entry [] []] 0%nat)
                (entry (str "a") (str "v")) 1%nat eq_refl eq_refl)
      as (b & Hb & Hiff & _).
    rewrite Hb. f_equal. apply Hiff. split; [reflexivity | discriminate].
  - destruct (C6_isRemovable
                (rows [entry (str "a") (str "v"); entry [] []] 1%nat)
                (entry [] []) 1%nat eq_refl eq_refl)
      as (b & Hb & _ & Hlast).
    rewrite Hb. f_equal. apply Hlast. reflexivity.
Defined.

(** C7: [deleteLabel] takes the first occurrence of the very object at
    hand out of the list and nothing else; when the object is not on the
    list, the controller is left as it was. *)
Theorem C7_deleteLabel this :
  deleteLabel this =
    {| heap := heap this;
       labels := remove_first (label this) (labels this);
       label := label this |} /\
  (forall before after,
      labels this = before ++ label this :: after ->
      label this ∉ before ->
      labels (deleteLabel this) = before ++ after) /\
  (label this ∉ labels this -> deleteLabel this = this).
Proof.
  split; [|split].
  - destruct (decide (label this ∈ labels this)) as [Hin | Hout].
    + apply list_elem_of_split_l in Hin as (before & after & E & Hb).
      rewrite (deleteLabel_first _ _ _ E Hb), E, remove_first_first by assumption.
      reflexivity.
    + rewrite deleteLabel_absent, remove_first_absent by assumption.
      destruct this. reflexivity.
  - intros before after E Hb. rewrite (deleteLabel_first _ _ _ E Hb). reflexivity.
  - apply deleteLabel_absent.
Qed.

(** An object that is on the list twice loses its first place only; an
    object that is not on the list changes nothing. *)
Lemma C7_deleteLabel_witness :
  let store : gmap loc DeployLabel :=
    list_to_map [(0%nat, entry (str "a") []); (1%nat, entry (str "b") []);
                 (2%nat, entry [] [])] in
  labels (deleteLabel {| heap := store; labels := [1; 0; 1; 2]%nat; label := 1%nat |})
    = [0; 1; 2]%nat /\
  deleteLabel {| heap := store; labels := [0; 2]%nat; label := 1%nat |}
    = {| heap := store; labels := [0; 2]%nat; label := 1%nat |}.
Proof.
  intros store. split.
  - apply (proj1 (proj2 (C7_deleteLabel
             {| heap := store; labels := [1; 0; 1; 2]%nat; label := 1%nat |}))
             [] [0; 1; 2]%nat); [reflexivity | apply not_elem_of_nil].
  - apply (proj2 (proj2 (C7_deleteLabel
             {| heap := store; labels := [0; 2]%nat; label := 1%nat |}))).
    cbn [labels label]. intros H.
    repeat (apply elem_of_cons in H as [H | H]; [discriminate|]).
    apply elem_of_nil in H. exact H.
Defined.

End Rows.

(** ** The sample keys of the specification *)

Section SampleKeys.

(** The key "my.domain.com/name": the prefix passes the prefix pattern
    and the name passes the name pattern. *)
Example sample_prefixed_key :
  let k := str "my.domain.com/name" in
  let r := check (rows [entry k []] 0%nat) (Some empty_form) in
  prefix_of k = str "my.domain.com" /\ name_of k = str "name" /\
  flag "prefixPattern" r = Some true /\ flag "namePattern" r = Some true.
Proof. vm_compute. repeat split. Qed.

(** The key "BAD_PREFIX/name": upper case and the underscore are not
    allowed in a prefix. *)
Example sample_bad_prefix :
  flag "prefixPattern"
    (check (rows [entry (str "BAD_PREFIX/name") []] 0%nat) (Some empty_form))
  = Some false.
Proof. vm_compute. reflexivity. Qed.

(** On keys without a line terminator the bounds are sharp: a prefix of
    253 characters passes and one of 254 fails, a name of 63 characters
    passes and one of 64 fails. *)
Example sample_length_bounds :
  let key_of p n := repeat (ch "a") p ++ str "/" ++ repeat (ch "b") n in
  let run p n := check (rows [entry (key_of p n) []] 0%nat) (Some empty_form) in
  flag "prefixLength" (run 253 63)%nat = Some true /\
  flag "prefixLength" (run 254 63)%nat = Some false /\
  flag "nameLength" (run 253 63)%nat = Some true /\
  flag "nameLength" (run 253 64)%nat = Some false /\
  flag "nameLength" (check (rows [entry (repeat (ch "b") 63) []] 0%nat)
                       (Some empty_form)) = Some true /\
  flag "nameLength" (check (rows [entry (repeat (ch "b") 64) []] 0%nat)
                       (Some empty_form)) = Some false.
Proof. vm_compute. repeat split. Qed.

End SampleKeys.

(** ** What the prefix pattern accepts *)

Section PrefixShape.

(** A starred pattern accepts the concatenations of strings its body
    accepts. *)
Lemma matches_star_concat r s :
  matches (Star r) s <->
  exists parts, s = concat parts /\ Forall (matches r) parts.
Proof.
  split.
  - intros H. remember (Star r) as r' eqn:Er.
    induction H; try discriminate.
    + exists []. split; [reflexivity | constructor].
    + injection Er as ->.
      destruct (IHmatches2 eq_refl) as (parts & -> & Hparts).
      exists (s1 :: parts). split; [reflexivity|]. constructor; assumption.
  - intros (parts & -> & Hparts).
    induction Hparts as [|p parts Hp _ IH]; simpl; [constructor|].
    constructor; assumption.
Qed.

Lemma lower_digit_lower_alphanumeric c :
  in_cls lower_digit c = lower_alphanumeric c.
Proof.
  unfold in_cls, lower_digit, lower_alphanumeric, in_range.
  cbn [existsb in_item]. rewrite orb_false_r. reflexivity.
Qed.

Lemma hyphen_lower_digit_label_character c :
  in_cls hyphen_lower_digit c = label_character c.
Proof.
  unfold in_cls, hyphen_lower_digit, label_character, lower_alphanumeric, in_range.
  cbn [existsb in_item]. rewrite orb_false_r.
  destruct (c =? ch "-")%N; [rewrite orb_true_r|rewrite orb_false_r]; reflexivity.
Qed.

Lemma matches_lower_digit s :
  matches (Cls lower_digit) s <-> exists c, s = [c] /\ lower_alphanumeric c = true.
Proof.
  rewrite matches_cls. split; intros (c & -> & H); exists c;
    (split; [reflexivity|]); [rewrite <- lower_digit_lower_alphanumeric
                             | rewrite lower_digit_lower_alphanumeric]; assumption.
Qed.

Lemma matches_hyphen_lower_digit s :
  matches (Cls hyphen_lower_digit) s <->
  exists c, s = [c] /\ label_character c = true.
Proof.
  rewrite matches_cls. split; intros (c & -> & H); exists c;
    (split; [reflexivity|]); [rewrite <- hyphen_lower_digit_label_character
                             | rewrite hyphen_lower_digit_label_character];
    assumption.
Qed.

Lemma lower_is_label_character c :
  lower_alphanumeric c = true -> label_character c = true.
Proof. intros H. unfold label_character. rewrite H. reflexivity. Qed.

Lemma matches_dns_label s : matches dns_label s <-> dns_label_shape s = true.
Proof.
  unfold dns_label. split.
  - intros H. apply matches_seq_inv in H as (s1 & s2 & -> & H1 & H2).
    apply matches_lower_digit in H1 as (c & -> & Hc).
    apply matches_opt_inv in H2 as [-> | H2].
    + simpl. rewrite Hc. reflexivity.
    + apply matches_seq_inv in H2 as (mid & t & -> & Hmid & Hd).
      apply matches_lower_digit in Hd as (d & -> & Hd).
      apply (star_single _ _ matches_hyphen_lower_digit) in Hmid.
      cbn [app dns_label_shape]. rewrite last_snoc, forallb_app, Hc, Hmid, Hd.
      cbn [forallb]. rewrite (lower_is_label_character _ Hd). reflexivity.
  - destruct s as [|c rest]; [discriminate|]. cbn [dns_label_shape].
    rewrite !andb_true_iff. intros [[Hc Hrest] Hlast].
    apply (m_seq _ _ [c] rest); [apply matches_lower_digit; eauto|].
    destruct (last rest) as [d|] eqn:E.
    + apply last_Some in E as [mid ->].
      rewrite forallb_app in Hrest. apply andb_true_iff in Hrest as [Hmid _].
      apply m_opt_some. constructor.
      * apply (star_single _ _ matches_hyphen_lower_digit). assumption.
      * apply matches_lower_digit. eauto.
    + apply last_None in E as ->. constructor.
Qed.

Lemma label_character_not_dot c : label_character c = true -> c <> dot.
Proof.
  unfold label_character, lower_alphanumeric, in_range.
  intros H ->. vm_compute in H. discriminate.
Qed.

Lemma dns_label_shape_characters s :
  dns_label_shape s = true -> forallb label_character s = true.
Proof.
  destruct s as [|c rest]; [discriminate|]. cbn [dns_label_shape forallb].
  rewrite !andb_true_iff. intros [[Hc Hrest] _].
  split; [apply lower_is_label_character|]; assumption.
Qed.

Lemma split_on_free c s :
  forallb (fun d => negb (d =? c)%N) s = true -> split_on c s = [s].
Proof.
  induction s as [|d s IH]; [reflexivity|]. cbn [forallb split_on].
  intros H. apply andb_true_iff in H as [Hd Hs].
  apply negb_true_iff in Hd. rewrite Hd, IH by assumption. reflexivity.
Qed.

Lemma split_on_app c a s :
  forallb (fun d => negb (d =? c)%N) a = true ->
  split_on c (a ++ c :: s) = a :: split_on c s.
Proof.
  induction a as [|d a IH]; cbn [forallb app split_on]; intros H.
  - rewrite N.eqb_refl. reflexivity.
  - apply andb_true_iff in H as [Hd Ha].
    apply negb_true_iff in Hd. rewrite Hd, IH by assumption. reflexivity.
Qed.

(** Joining the pieces with [c] gives the string back. *)
Lemma split_on_join c s :
  exists piece pieces,
    split_on c s = piece :: pieces /\
    s = piece ++ concat (map (cons c) pieces).
Proof.
  induction s as [|d s (piece & pieces & E & Hs)]; cbn [split_on].
  - exists [], []. split; reflexivity.
  - destruct (N.eqb_spec d c) as [-> | Hne].
    + exists [], (piece :: pieces). rewrite E. split; [reflexivity|].
      simpl. rewrite <- Hs. reflexivity.
    + rewrite E. exists (d :: piece), pieces. split; [reflexivity|].
      simpl. rewrite <- Hs. reflexivity.
Qed.

Lemma dns_label_shape_no_dot s :
  dns_label_shape s = true -> forallb (fun d => negb (d =? dot)%N) s = true.
Proof.
  intros H. apply dns_label_shape_characters in H.
  rewrite forallb_forall in H |- *. intros d Hd.
  apply negb_true_iff, N.eqb_neq, label_character_not_dot, H. assumption.
Qed.

Lemma split_on_labels l ls :
  dns_label_shape l = true -> Forall (fun x => dns_label_shape x = true) ls ->
  split_on dot (l ++ concat (map (cons dot) ls)) = l :: ls.
Proof.
  intros Hl Hls. revert l Hl. induction Hls as [|x ls Hx _ IH]; intros l Hl.
  - simpl. rewrite app_nil_r. apply split_on_free, dns_label_shape_no_dot.
    assumption.
  - cbn [map concat]. rewrite <- app_comm_cons.
    rewrite split_on_app by (apply dns_label_shape_no_dot; assumption).
    rewrite IH by assumption. reflexivity.
Qed.

(** [labelKeyPrefixPattern] accepts exactly the DNS subdomains. *)
Theorem labelKeyPrefixPattern_accepts s :
  test labelKeyPrefixPattern s = dns_subdomain s.
Proof.
  apply eq_true_iff_eq. rewrite test_matches.
  unfold labelKeyPrefixPattern, dns_subdomain. split.
  - intros H. apply matches_seq_inv in H as (l & t & -> & Hl & Ht).
    apply matches_dns_label in Hl.
    apply matches_star_concat in Ht as (parts & -> & Hparts).
    assert (Hls : exists ls, parts = map (cons dot) ls /\
                             Forall (fun x => dns_label_shape x = true) ls).
    { induction Hparts as [|p parts Hp _ (ls & -> & Hls)].
      - exists []. split; [reflexivity | constructor].
      - apply matches_seq_inv in Hp as (d & x & -> & Hd & Hx).
        apply matches_chr in Hd as ->. apply matches_dns_label in Hx.
        exists (x :: ls). split; [reflexivity|]. constructor; assumption. }
    destruct Hls as (ls & -> & Hls).
    rewrite split_on_labels by assumption.
    cbn [forallb]. rewrite Hl. apply forallb_forall.
    rewrite Forall_forall in Hls. intros x Hx. apply Hls.
    apply list_elem_of_In. assumption.
  - intros H. destruct (split_on_join dot s) as (l & ls & E & ->).
    rewrite E in H. cbn [forallb] in H. apply andb_true_iff in H as [Hl Hls].
    constructor; [apply matches_dns_label; assumption|].
    apply matches_star_concat. exists (map (cons dot) ls).
    split; [reflexivity|].
    rewrite forallb_forall in Hls. apply Forall_forall. intros p Hp.
    apply list_elem_of_In, in_map_iff in Hp as (x & <- & Hx).
    apply (m_seq _ _ [dot] x); [constructor|].
    apply matches_dns_label, Hls. assumption.
Qed.

End PrefixShape.

(** ** Keys that cannot pass *)

Section Rejected.

Lemma name_character_plain c :
  name_character c = true -> isLineTerminator c = false /\ c <> slash.
Proof.
  intros H. split.
  - destruct (isLineTerminator c) eqn:E; [|reflexivity].
    unfold isLineTerminator in E. rewrite !orb_true_iff, !N.eqb_eq in E.
    destruct E as [[[-> | ->] | ->] | ->]; vm_compute in H; discriminate.
  - intros ->. vm_compute in H. discriminate.
Qed.

Lemma alphanumeric_name_character c :
  alphanumeric c = true -> name_character c = true.
Proof. intros H. unfold name_character. rewrite H. reflexivity. Qed.

Lemma name_shape_characters s :
  name_shape s -> forallb name_character s = true.
Proof.
  intros [(c & -> & Hc) | (c & mid & d & -> & Hc & Hmid & Hd)].
  - simpl. rewrite (alphanumeric_name_character _ Hc). reflexivity.
  - cbn [forallb]. rewrite forallb_app, Hmid. cbn [forallb].
    rewrite !alphanumeric_name_character by assumption. reflexivity.
Qed.

Lemma name_characters_plain s :
  forallb name_character s = true ->
  has_line_terminator s = false /\ has_slash s = false.
Proof.
  unfold has_line_terminator, has_slash.
  induction s as [|c s IH]; [auto|]. cbn [forallb existsb].
  intros H. apply andb_true_iff in H as [Hc Hs].
  destruct (name_character_plain _ Hc) as [Hlt Hsl], (IH Hs) as [-> ->].
  rewrite Hlt. split; [reflexivity|].
  rewrite orb_false_r. apply N.eqb_neq. congruence.
Qed.

Lemma name_shape_plain s :
  name_shape s -> has_line_terminator s = false /\ has_slash s = false.
Proof. intros H. apply name_characters_plain, name_shape_characters, H. Qed.

Lemma label_character_name_character c :
  label_character c = true -> name_character c = true.
Proof.
  unfold label_character, lower_alphanumeric, name_character, alphanumeric.
  destruct (in_range "a" "z" c), (in_range "0" "9" c), (c =? ch "-")%N;
    try discriminate; intros _; rewrite ?orb_true_r; reflexivity.
Qed.

Lemma dns_subdomain_no_line_terminator s :
  dns_subdomain s = true -> has_line_terminator s = false.
Proof.
  unfold dns_subdomain. intros H.
  destruct (split_on_join dot s) as (l & ls & E & ->).
  rewrite E in H. clear E. cbn [forallb] in H. apply andb_true_iff in H as [Hl Hls].
  assert (Hpiece : forall x, dns_label_shape x = true -> has_line_terminator x = false).
  { intros x Hx. apply name_characters_plain.
    apply dns_label_shape_characters in Hx.
    rewrite forallb_forall in Hx |- *. intros c Hc.
    apply label_character_name_character, Hx, Hc. }
  rewrite has_line_terminator_app, (Hpiece _ Hl). cbn [orb].
  induction ls as [|x ls IH]; [reflexivity|].
  cbn [forallb] in Hls. apply andb_true_iff in Hls as [Hx Hls].
  cbn [map concat]. rewrite has_line_terminator_app.
  change (has_line_terminator (dot :: x)) with (has_line_terminator x).
  rewrite (Hpiece _ Hx), IH by assumption. reflexivity.
Qed.

(** A key with a line terminator is never taken as prefixed, and its
    name, the whole key, is rejected. *)
Lemma line_terminator_key k :
  has_line_terminator k = true ->
  isPrefixed k = false /\ test labelKeyNamePattern (labelName k) = false.
Proof.
  intros H.
  assert (Hp : isPrefixed k = false).
  { rewrite isPrefixed_accepts, H. apply andb_false_r. }
  split; [assumption|]. unfold labelName. rewrite Hp.
  destruct (test labelKeyNamePattern k) eqn:E; [|reflexivity].
  apply labelKeyNamePattern_accepts, name_shape_plain in E as [E _]. congruence.
Qed.

Lemma key_of_parts k :
  has_slash k = true -> k = prefix_of k ++ slash :: name_of k.
Proof.
  intros H. unfold prefix_of, name_of. rewrite H.
  apply split_first, has_slash_In. assumption.
Qed.

(** The four flags on the form of the key are all true exactly for the
    label keys of Kubernetes. *)
Lemma syntax_flags_valid k :
  test labelKeyPrefixPattern (labelPrefix k (str "valid-pattern")) = true /\
  test labelKeyNamePattern (labelName k) = true /\
  (js_length (labelPrefix k []) <=? 253) = true /\
  (js_length (labelName k) <=? 63) = true
  <-> valid_label_key k.
Proof.
  unfold valid_label_key.
  destruct (has_slash k) eqn:Hs; [destruct (has_line_terminator k) eqn:Hlt|].
  - (* a "/" and a line terminator: rejected on both sides *)
    destruct (line_terminator_key _ Hlt) as [_ Hn]. rewrite Hn. split.
    + intros (_ & H & _). discriminate.
    + intros (Hname & _ & Hprefix). exfalso.
      destruct (Hprefix eq_refl) as [Hdns _].
      apply dns_subdomain_no_line_terminator in Hdns.
      apply name_shape_plain in Hname as [Hname _].
      rewrite (key_of_parts _ Hs), has_line_terminator_app in Hlt.
      change (has_line_terminator (slash :: name_of k))
        with (has_line_terminator (name_of k)) in Hlt.
      rewrite Hdns, Hname in Hlt. discriminate.
  - assert (Hk : has_slash k && has_line_terminator k = false)
      by (rewrite Hlt; apply andb_false_r).
    rewrite (labelName_name_of _ Hk), (labelPrefix_prefix_of _ Hk).
    assert (Hp : labelPrefix k (str "valid-pattern") = prefix_of k).
    { unfold labelPrefix, slashPosition. rewrite isPrefixed_accepts, Hs, Hlt.
      cbn [negb andb]. apply substring_prefix. assumption. }
    rewrite Hp, labelKeyPrefixPattern_accepts, labelKeyNamePattern_accepts.
    rewrite !Z.leb_le. split.
    + intros (H1 & H2 & H3 & H4). auto.
    + intros (H2 & H4 & H). destruct (H eq_refl) as [H1 H3]. auto.
  - assert (Hk : has_slash k && has_line_terminator k = false)
      by (rewrite Hs; reflexivity).
    rewrite (labelName_name_of _ Hk), !labelPrefix_no_slash by assumption.
    rewrite labelKeyNamePattern_accepts, !Z.leb_le. split.
    + intros (_ & H2 & _ & H4). split; [assumption|]. split; [assumption|].
      intros; discriminate.
    + intros (H2 & H4 & _). split; [reflexivity|]. split; [assumption|].
      split; [unfold js_length; simpl; lia | assumption].
Qed.

End Rejected.

(** * Further properties of the controller *)

Section KeySplit.

(** X1: [validateKey_] takes a key as prefixed exactly when the key has
    a "/" and no line terminator; a key that is not prefixed is cut
    nowhere: the slash position is -1 and the whole key is its name. *)
Theorem X1_prefixed_keys k :
  (isPrefixed k = true <-> In slash k /\ has_line_terminator k = false) /\
  (isPrefixed k = false -> slashPosition k = -1 /\ labelName k = k).
Proof.
  split.
  - rewrite isPrefixed_accepts, andb_true_iff, has_slash_In, negb_true_iff.
    reflexivity.
  - intros H. unfold labelName, slashPosition. rewrite H. auto.
Qed.

(** X2: for a prefixed key the slash position is an index of the key,
    and the prefix, a "/" and the name put together give the key back;
    the prefix holds no "/". *)
Theorem X2_split_round_trip k otherwise :
  isPrefixed k = true ->
  0 <= slashPosition k < js_length k /\
  k = labelPrefix k otherwise ++ slash :: labelName k /\
  js_length (labelPrefix k otherwise) = slashPosition k /\
  has_slash (labelPrefix k otherwise) = false.
Proof.
  intros H. assert (Hp := H).
  rewrite isPrefixed_accepts in Hp. apply andb_true_iff in Hp as [Hs Hlt].
  apply negb_true_iff in Hlt.
  unfold labelPrefix, labelName, slashPosition. rewrite H.
  rewrite substring_prefix, substring_name, indexOf_slash by assumption.
  assert (Hk := key_of_parts _ Hs). unfold prefix_of, name_of in *.
  rewrite Hs in *. split; [|split; [exact Hk|split; [reflexivity|]]].
  - assert (Hl := f_equal (@length char) Hk).
    rewrite length_app in Hl. simpl length in Hl. unfold js_length. lia.
  - destruct (has_slash (before_first slash k)) eqn:E; [|reflexivity].
    apply has_slash_In in E. destruct (before_first_free _ _ E).
Qed.

Lemma X2_split_round_trip_witness :
  let k := str "my.domain.com/name" in
  slashPosition k = 13 /\
  k = labelPrefix k [] ++ slash :: labelName k.
Proof.
  intros k.
  destruct (X2_split_round_trip k [] eq_refl) as (_ & Hk & Hlen & _).
  split; [|exact Hk]. rewrite <- Hlen. reflexivity.
Defined.

End KeySplit.

Section MoreFlags.

Implicit Types (this : DeployLabelController) (cur : DeployLabel).

(** X3: for a key without a line terminator, [prefixPattern] is true
    exactly when the key has no "/" or its prefix is a DNS subdomain:
    labels of lower-case letters, digits and inner hyphens, separated by
    single dots. An empty prefix does not pass. *)
Theorem X3_prefixPattern_subdomain this (form : Form.FormController) cur :
  wf this = true -> labels this <> [] ->
  heap this !! label this = Some cur ->
  has_line_terminator (key cur) = false ->
  flag "prefixPattern" (check this (Some form))
  = Some (if has_slash (key cur) then dns_subdomain (prefix_of (key cur))
          else true).
Proof.
  intros Hwf Hne Hcur Hlt. destruct (has_slash (key cur)) eqn:Hs.
  - rewrite (prefixPattern_plain_key _ _ _ Hwf Hne Hcur Hs Hlt).
    rewrite labelKeyPrefixPattern_accepts. reflexivity.
  - destruct (flag_check _ form _ "prefixPattern" Hwf Hne Hcur) as [o ->].
    rewrite validated_prefixPattern, (labelPrefix_no_slash _ _ Hs). reflexivity.
Qed.

Lemma X3_prefixPattern_subdomain_witness :
  flag "prefixPattern"
    (check (rows [entry (str "a..b/name") []] 0%nat) (Some empty_form))
  = Some false /\
  flag "prefixPattern"
    (check (rows [entry (str "/name") []] 0%nat) (Some empty_form))
  = Some false /\
  flag "prefixPattern"
    (check (rows [entry (str "a-1.b/name") []] 0%nat) (Some empty_form))
  = Some true.
Proof.
  split; [|split].
  - rewrite (X3_prefixPattern_subdomain _ empty_form (entry (str "a..b/name") []));
      [reflexivity | reflexivity | discriminate | reflexivity | reflexivity].
  - rewrite (X3_prefixPattern_subdomain _ empty_form (entry (str "/name") []));
      [reflexivity | reflexivity | discriminate | reflexivity | reflexivity].
  - rewrite (X3_prefixPattern_subdomain _ empty_form (entry (str "a-1.b/name") []));
      [reflexivity | reflexivity | discriminate | reflexivity | reflexivity].
Defined.

(** X4: a key with a line terminator never passes: [namePattern] is
    false, whether it has a "/" or not. Its other flags are those of a
    key without prefix: [prefixPattern] and [prefixLength] are true and
    [nameLength] measures the whole key. *)
Theorem X4_line_terminator_rejected this (form : Form.FormController) cur :
  wf this = true -> labels this <> [] ->
  heap this !! label this = Some cur ->
  has_line_terminator (key cur) = true ->
  flag "namePattern" (check this (Some form)) = Some false /\
  flag "prefixPattern" (check this (Some form)) = Some true /\
  flag "prefixLength" (check this (Some form)) = Some true /\
  flag "nameLength" (check this (Some form))
    = Some (js_length (key cur) <=? 63).
Proof.
  intros Hwf Hne Hcur Hlt.
  destruct (line_terminator_key _ Hlt) as [Hp Hn].
  split; [|split; [|split]].
  - destruct (flag_check _ form _ "namePattern" Hwf Hne Hcur) as [o ->].
    rewrite validated_namePattern, Hn. reflexivity.
  - destruct (flag_check _ form _ "prefixPattern" Hwf Hne Hcur) as [o ->].
    rewrite validated_prefixPattern. unfold labelPrefix. rewrite Hp. reflexivity.
  - destruct (flag_check _ form _ "prefixLength" Hwf Hne Hcur) as [o ->].
    rewrite validated_prefixLength. unfold labelPrefix. rewrite Hp. reflexivity.
  - destruct (flag_check _ form _ "nameLength" Hwf Hne Hcur) as [o ->].
    rewrite validated_nameLength. unfold labelName. rewrite Hp. reflexivity.
Qed.

Lemma X4_line_terminator_rejected_witness :
  flag "namePattern"
    (check (rows [entry (str "a/b" ++ LS) []] 0%nat) (Some empty_form))
  = Some false.
Proof.
  apply (X4_line_terminator_rejected _ empty_form (entry (str "a/b" ++ LS) []));
    [reflexivity | discriminate | reflexivity | reflexivity].
Defined.

(** X5: the four flags on the form of the key, [prefixPattern],
    [namePattern], [prefixLength] and [nameLength], are all true exactly
    when the key is a label key of Kubernetes: a name of the shape of
    the name pattern and of at most 63 characters, after an optional DNS
    subdomain of at most 253 characters and a "/". This holds for every
    key, those with line terminators included. *)
Theorem X5_valid_label_key this (form : Form.FormController) cur :
  wf this = true -> labels this <> [] ->
  heap this !! label this = Some cur ->
  (flag "prefixPattern" (check this (Some form)) = Some true /\
   flag "namePattern" (check this (Some form)) = Some true /\
   flag "prefixLength" (check this (Some form)) = Some true /\
   flag "nameLength" (check this (Some form)) = Some true)
  <-> valid_label_key (key cur).
Proof.
  intros Hwf Hne Hcur. rewrite <- syntax_flags_valid.
  destruct (flag_check _ form _ "prefixPattern" Hwf Hne Hcur) as [o1 ->].
  destruct (flag_check _ form _ "namePattern" Hwf Hne Hcur) as [o2 ->].
  destruct (flag_check _ form _ "prefixLength" Hwf Hne Hcur) as [o3 ->].
  destruct (flag_check _ form _ "nameLength" Hwf Hne Hcur) as [o4 ->].
  rewrite validated_prefixPattern, validated_namePattern,
    validated_prefixLength, validated_nameLength.
  split; intros (H1 & H2 & H3 & H4); repeat split; congruence.
Qed.

Lemma X5_valid_label_key_witness :
  valid_label_key (str "my.domain.com/name") /\
  ~ valid_label_key (LF ++ str "/b").
Proof.
  split.
  - apply (X5_valid_label_key (rows [entry (str "my.domain.com/name") []] 0%nat)
             empty_form (entry (str "my.domain.com/name") [])
             eq_refl ltac:(discriminate) eq_refl).
    vm_compute. repeat split.
  - intros H.
    apply (X5_valid_label_key (rows [entry (LF ++ str "/b") []] 0%nat)
             empty_form (entry (LF ++ str "/b") [])
             eq_refl ltac:(discriminate) eq_refl) in H.
    destruct H as (_ & H & _). vm_compute in H. discriminate.
Defined.

(** X6: a key with two or more "/" never passes: [namePattern] is
    false, since the name starts after the first "/" and may hold
    none. *)
Theorem X6_second_slash_rejected this (form : Form.FormController) cur :
  wf this = true -> labels this <> [] ->
  heap this !! label this = Some cur ->
  has_slash (name_of (key cur)) = true ->
  flag "namePattern" (check this (Some form)) = Some false.
Proof.
  intros Hwf Hne Hcur Hs.
  destruct (has_line_terminator (key cur)) eqn:Hlt.
  - destruct (flag_check _ form _ "namePattern" Hwf Hne Hcur) as [o ->].
    rewrite validated_namePattern.
    destruct (line_terminator_key _ Hlt) as [_ ->]. reflexivity.
  - destruct (flag_check _ form _ "namePattern" Hwf Hne Hcur) as [o ->].
    rewrite validated_namePattern, labelName_name_of
      by (rewrite Hlt; apply andb_false_r).
    f_equal. destruct (test labelKeyNamePattern _) eqn:E; [|reflexivity].
    apply labelKeyNamePattern_accepts, name_shape_plain in E as [_ E].
    congruence.
Qed.

Lemma X6_second_slash_rejected_witness :
  flag "namePattern"
    (check (rows [entry (str "a/b/c") []] 0%nat) (Some empty_form))
  = Some false.
Proof.
  apply (X6_second_slash_rejected _ empty_form (entry (str "a/b/c") []));
    [reflexivity | discriminate | reflexivity | reflexivity].
Defined.

End MoreFlags.

Section FormAndList.

Implicit Types (this : DeployLabelController) (o cur : DeployLabel).

Lemma validated_other this k (elem : NgModelController) name :
  name ∉ validity_names -> validated this k elem !! name = elem !! name.
Proof.
  unfold validity_names. rewrite !not_elem_of_cons.
  intros (H1 & H2 & H3 & H4 & H5 & _).
  unfold validated, setValidity.
  rewrite !lookup_insert_ne by congruence. reflexivity.
Qed.

(** X7: [check] writes the five flags "unique", "prefixPattern",
    "namePattern", "prefixLength" and "nameLength" on the key input and
    leaves every flag of another name as the form had it. *)
Theorem X7_other_flags_kept this (form : Form.FormController) name :
  wf this = true -> labels this <> [] ->
  name ∉ validity_names ->
  flag name (check this (Some form)) = Form.key form !! name.
Proof.
  intros Hwf Hne Hname. destruct (wf_label _ Hwf) as [cur Hcur].
  destruct (flag_check _ form _ name Hwf Hne Hcur) as [o ->].
  apply validated_other. assumption.
Qed.

Lemma X7_other_flags_kept_witness :
  flag "required"
    (check (rows [entry (str "a") []] 0%nat)
       (Some {| Form.key := {[ "required" := false ]} |}))
  = Some false.
Proof.
  rewrite (X7_other_flags_kept (rows [entry (str "a") []] 0%nat)
             {| Form.key := {[ "required" := false ]} |} "required");
    [reflexivity | reflexivity | discriminate |].
  unfold validity_names. rewrite !not_elem_of_cons.
  repeat split; try discriminate. apply not_elem_of_nil.
Defined.

(** X8: without a form [check] validates nothing and returns no form;
    what it does to the list is what it does with a form. *)
Theorem X8_form_is_optional this :
  wf this = true -> labels this <> [] ->
  exists this',
    check this None = Ok (this', None) /\
    forall form : Form.FormController,
    exists form', check this (Some form) = Ok (this', Some form').
Proof.
  intros Hwf Hne. destruct (last_is_Some _ Hne) as [l Hl].
  assert (Ha := last_alive _ _ Hwf Hl). apply alive_lookup in Ha as [o Ho].
  destruct (wf_label _ Hwf) as [cur Hcur].
  exists (checked this o). split.
  - apply (check_run_no_form _ _ _ Hl Ho).
  - intros form. rewrite (check_run _ _ _ _ _ Hwf Hl Ho Hcur). eauto.
Qed.

Lemma X8_form_is_optional_witness :
  exists this',
    check (rows [entry (str "k") (str "v")] 0%nat) None = Ok (this', None) /\
    length (labels this') = 2%nat.
Proof.
  destruct (X8_form_is_optional (rows [entry (str "k") (str "v")] 0%nat)
              eq_refl ltac:(discriminate)) as (this' & Hc & _).
  exists this'. split; [exact Hc|].
  vm_compute in Hc. injection Hc as <-. reflexivity.
Defined.

Lemma validated_again this k (elem : NgModelController) :
  validated this k (validated this k elem) = validated this k elem.
Proof.
  set (m := validated this k elem). unfold validated at 1, setValidity.
  rewrite (insert_id m "unique") by apply validated_unique.
  rewrite (insert_id m "prefixPattern") by apply validated_prefixPattern.
  rewrite (insert_id m "namePattern") by apply validated_namePattern.
  rewrite (insert_id m "prefixLength") by apply validated_prefixLength.
  rewrite (insert_id m "nameLength") by apply validated_nameLength.
  reflexivity.
Qed.

(** After [check] the last entry is not filled: it is the blank entry
    just pushed, or the last entry as it was. *)
Lemma checked_last this l o :
  last (labels this) = Some l -> heap this !! l = Some o ->
  exists l' o',
    last (labels (checked this o)) = Some l' /\
    heap (checked this o) !! l' = Some o' /\
    filled o' = false.
Proof.
  intros Hl Ho. unfold checked. destruct (filled o) eqn:E.
  - exists (fresh (dom (heap this))), new_DeployLabel.
    split; [apply last_snoc|]. split; [apply addNewLabel_new | reflexivity].
  - exists l, o. auto.
Qed.

(** X9: on a list that is not empty, the list that [check] leaves is
    never empty and its last entry is never filled: there is always a
    row to type into. (The entry [check] pushes is the blank entry of
    [new DeployLabel()].) *)
Theorem X9_open_row_after_check this (form : option Form.FormController) :
  wf this = true -> labels this <> [] ->
  exists this' form' l o,
    check this form = Ok (this', form') /\
    last (labels this') = Some l /\
    heap this' !! l = Some o /\
    (key o = [] \/ value o tt = []).
Proof.
  intros Hwf Hne.
  destruct (check_returns _ form Hwf Hne) as (l & o & Hl & Ho & form' & Hc).
  destruct (checked_last _ _ _ Hl Ho) as (l' & o' & Hl' & Ho' & Hf).
  exists (checked this o), form', l', o'. repeat split; try assumption.
  apply filled_false. assumption.
Qed.

Lemma X9_open_row_after_check_witness :
  exists this' form' l o,
    check (rows [entry (str "k") (str "v")] 0%nat) None = Ok (this', form') /\
    last (labels this') = Some l /\
    heap this' !! l = Some o /\
    (key o = [] \/ value o tt = []).
Proof.
  apply (X9_open_row_after_check (rows [entry (str "k") (str "v")] 0%nat) None);
    [reflexivity | discriminate].
Defined.

(** X10: [check] is idempotent: run again on what it returned, with no
    edit in between, it changes neither the list nor the form. *)
Theorem X10_check_twice this (form : option Form.FormController) this' form' :
  wf this = true -> labels this <> [] ->
  check this form = Ok (this', form') ->
  check this' form' = Ok (this', form').
Proof.
  intros Hwf Hne Hc.
  destruct (last_is_Some _ Hne) as [l Hl].
  assert (Ha := last_alive _ _ Hwf Hl). apply alive_lookup in Ha as [o Ho].
  destruct (wf_label _ Hwf) as [cur Hcur].
  destruct (checked_last _ _ _ Hl Ho) as (l' & o' & Hl' & Ho' & Hf).
  assert (Hsame : checked (checked this o) o' = checked this o).
  { unfold checked at 1. rewrite Hf. reflexivity. }
  destruct form as [form|].
  - rewrite (check_run _ _ _ _ _ Hwf Hl Ho Hcur) in Hc. injection Hc as <- <-.
    rewrite (check_run (checked this o) _ l' o' cur).
    + rewrite Hsame. cbn [Form.key]. rewrite validated_again. reflexivity.
    + apply checked_wf. assumption.
    + assumption.
    + assumption.
    + rewrite checked_label. apply checked_keeps. assumption.
  - rewrite (check_run_no_form _ _ _ Hl Ho) in Hc. injection Hc as <- <-.
    rewrite (check_run_no_form (checked this o) l' o' Hl' Ho'), Hsame.
    reflexivity.
Qed.

Lemma X10_check_twice_witness :
  exists this' form',
    check (rows [entry (str "k") (str "v")] 0%nat) (Some empty_form)
    = Ok (this', form') /\
    check this' form' = Ok (this', form').
Proof.
  destruct (check_returns (rows [entry (str "k") (str "v")] 0%nat)
              (Some empty_form) eq_refl ltac:(discriminate))
    as (l & o & _ & _ & form' & Hc).
  eexists _, form'. split; [exact Hc|].
  apply (X10_check_twice (rows [entry (str "k") (str "v")] 0%nat)
           (Some empty_form)); [reflexivity | discriminate | exact Hc].
Defined.

End FormAndList.

Section RowsAgain.

Implicit Types (this : DeployLabelController) (o cur : DeployLabel).

Lemma isRemovable_run this cur l :
  heap this !! label this = Some cur -> last (labels this) = Some l ->
  isRemovable this = Ok (editable cur && negb (bool_decide (label this = l))).
Proof.
  intros Hcur Hl. unfold isRemovable.
  rewrite (get_index_last _ _ Hl), (obj_of_ref _ _ _ Hcur). reflexivity.
Qed.

(** X11: filling the last row makes it removable. While the entry at
    hand is the last one [isRemovable] is false; once it is filled,
    [check] pushes a new object behind it and [isRemovable] is its
    [editable] flag. *)
Theorem X11_filled_row_becomes_removable this
    (form : option Form.FormController) cur :
  wf this = true ->
  last (labels this) = Some (label this) ->
  heap this !! label this = Some cur ->
  key cur <> [] -> value cur tt <> [] ->
  isRemovable this = Ok false /\
  exists this' form',
    check this form = Ok (this', form') /\
    isRemovable this' = Ok (editable cur).
Proof.
  intros Hwf Hl Hcur Hk Hv. split.
  - rewrite (isRemovable_run _ _ _ Hcur Hl).
    rewrite bool_decide_eq_true_2 by reflexivity. rewrite andb_false_r.
    reflexivity.
  - assert (Hf : filled cur = true) by (apply filled_true; auto).
    assert (Hc : exists form', check this form = Ok (checked this cur, form')).
    { destruct form as [f|].
      - rewrite (check_run _ _ _ _ _ Hwf Hl Hcur Hcur). eauto.
      - rewrite (check_run_no_form _ _ _ Hl Hcur). eauto. }
    destruct Hc as [form' Hc]. exists (checked this cur), form'.
    split; [assumption|]. unfold checked. rewrite Hf.
    rewrite (isRemovable_run (addNewLabel_ this) cur (fresh (dom (heap this)))).
    + cbn [label addNewLabel_].
      rewrite bool_decide_eq_false_2, andb_true_r; [reflexivity|].
      intros E. rewrite E, fresh_unused in Hcur. discriminate.
    + apply addNewLabel_keeps. assumption.
    + apply last_snoc.
Qed.

Lemma X11_filled_row_becomes_removable_witness :
  isRemovable (rows [entry (str "k") (str "v")] 0%nat) = Ok false /\
  exists this' form',
    check (rows [entry (str "k") (str "v")] 0%nat) None = Ok (this', form') /\
    isRemovable this' = Ok true.
Proof.
  apply (X11_filled_row_becomes_removable
           (rows [entry (str "k") (str "v")] 0%nat) None
           (entry (str "k") (str "v")));
    [reflexivity | reflexivity | reflexivity | discriminate | discriminate].
Defined.

(** X12: on an empty list [isRemovable] does not throw: the last
    element is [undefined], no object is identical to it, and the answer
    is the [editable] flag of the entry at hand. *)
Theorem X12_isRemovable_empty_list this cur :
  labels this = [] ->
  heap this !! label this = Some cur ->
  isRemovable this = Ok (editable cur).
Proof.
  intros Hl Hcur. unfold isRemovable.
  rewrite Hl, (obj_of_ref _ _ _ Hcur). run.
  cbn. rewrite andb_true_r. reflexivity.
Qed.

Lemma X12_isRemovable_empty_list_witness :
  isRemovable {| heap := {[ 0%nat := entry (str "a") (str "v") ]};
                 labels := [];
                 label := 0%nat |} = Ok true.
Proof.
  apply (X12_isRemovable_empty_list _ (entry (str "a") (str "v")));
    reflexivity.
Defined.

Lemma isRemovable_not_last this :
  isRemovable this = Ok true -> last (labels this) <> Some (label this).
Proof.
  intros H Hl. unfold isRemovable in H.
  rewrite (get_index_last _ _ Hl) in H.
  destruct (obj_of _ _) as [o| |]; try discriminate.
  revert H. run. cbn [val_eqb].
  rewrite bool_decide_eq_true_2 by reflexivity.
  rewrite andb_false_r. discriminate.
Qed.

(** X13: deleting a row that [isRemovable] allows never takes the last
    row away: the last entry of the list stays the last entry, and when
    the row is on the list the list gets shorter by one. *)
Theorem X13_deleteLabel_keeps_last this :
  isRemovable this = Ok true ->
  last (labels (deleteLabel this)) = last (labels this) /\
  (label this ∈ labels this ->
   length (labels this) = S (length (labels (deleteLabel this)))).
Proof.
  intros H. apply isRemovable_not_last in H.
  destruct (decide (label this ∈ labels this)) as [Hin | Hout].
  - apply list_elem_of_split_l in Hin as (before & after & E & Hb).
    rewrite (deleteLabel_first _ _ _ E Hb). cbn [labels]. rewrite E in *.
    split.
    + destruct after as [|a after].
      * destruct H. apply last_snoc.
      * rewrite !last_app_cons. reflexivity.
    + intros _. rewrite !length_app. simpl. lia.
  - rewrite (deleteLabel_absent _ Hout). split; [reflexivity|].
    intros Hin. contradiction.
Qed.

Lemma X13_deleteLabel_keeps_last_witness :
  let this := rows [entry (str "a") (str "v"); entry [] []] 0%nat in
  last (labels (deleteLabel this)) = Some 1%nat /\
  length (labels (deleteLabel this)) = 1%nat.
Proof.
  intros this.
  destruct (X13_deleteLabel_keeps_last this eq_refl) as [Hlast Hlen].
  split; [exact Hlast|].
  assert (Hin : label this ∈ labels this) by (apply elem_of_cons; left; reflexivity).
  apply Hlen in Hin. exact (eq_sym (f_equal Nat.pred Hin)).
Defined.

(** X14: [deleteLabel] itself does not ask [isRemovable]: on a list
    whose only row is the entry at hand it leaves the list empty, and
    the next [check] throws a [TypeError]. *)
Theorem X14_deleteLabel_only_row this (form : option Form.FormController) :
  labels this = [label this] ->
  labels (deleteLabel this) = [] /\
  check (deleteLabel this) form = Throw TypeError.
Proof.
  intros E.
  assert (Hd : labels (deleteLabel this) = []).
  { rewrite (deleteLabel_first this [] [] E); [reflexivity | apply not_elem_of_nil]. }
  split; [assumption|]. unfold check.
  rewrite (addIfNeeded_empty _ Hd). reflexivity.
Qed.

Lemma X14_deleteLabel_only_row_witness :
  check (deleteLabel (rows [entry [] []] 0%nat)) (Some empty_form)
  = Throw TypeError.
Proof.
  apply (X14_deleteLabel_only_row (rows [entry [] []] 0%nat) (Some empty_form)).
  reflexivity.
Defined.

Lemma occurrences_nonneg h k ls : 0 <= occurrences h k ls.
Proof.
  induction ls as [|l ls IH]; cbn [occurrences]; [lia|].
  destruct (has_key h k l); lia.
Qed.

Lemma occurrences_one h k ls :
  1 <= occurrences h k ls <->
  exists j l, ls !! j = Some l /\ has_key h k l = true.
Proof.
  induction ls as [|x ls IH]; cbn [occurrences].
  - split; [lia | intros (j & l & H & _); discriminate].
  - split.
    + intros H. destruct (has_key h k x) eqn:Ex.
      * exists 0%nat, x. auto.
      * destruct (proj1 IH ltac:(lia)) as (j & l & Hj & Hl).
        exists (S j), l. auto.
    + intros (j & l & Hj & Hl). destruct j as [|j].
      * injection Hj as ->. rewrite Hl.
        assert (H := occurrences_nonneg h k ls). lia.
      * assert (H : 1 <= occurrences h k ls) by (apply IH; eauto).
        destruct (has_key h k x); lia.
Qed.

Lemma occurrences_two h k ls :
  2 <= occurrences h k ls <->
  exists i j l1 l2,
    (i < j)%nat /\ ls !! i = Some l1 /\ ls !! j = Some l2 /\
    has_key h k l1 = true /\ has_key h k l2 = true.
Proof.
  induction ls as [|x ls IH]; cbn [occurrences].
  - split; [lia | intros (i & j & l1 & l2 & _ & H & _); discriminate].
  - split.
    + intros H. destruct (Z_le_gt_dec 2 (occurrences h k ls)) as [H2 | H2].
      * destruct (proj1 IH H2) as (i & j & l1 & l2 & Hij & Hi & Hj & H1 & H2').
        exists (S i), (S j), l1, l2. repeat split; try assumption. lia.
      * destruct (has_key h k x) eqn:Ex; [|lia].
        destruct (proj1 (occurrences_one h k ls) ltac:(lia)) as (j & l & Hj & Hl).
        exists 0%nat, (S j), x, l. repeat split; try assumption. lia.
    + intros (i & j & l1 & l2 & Hij & Hi & Hj & H1 & H2).
      destruct j as [|j]; [lia|]. destruct i as [|i].
      * injection Hi as ->. rewrite H1.
        assert (H : 1 <= occurrences h k ls) by (apply occurrences_one; eauto).
        lia.
      * assert (H : 2 <= occurrences h k ls).
        { apply IH. exists i, j, l1, l2. repeat split; try assumption. lia. }
        destruct (has_key h k x); lia.
Qed.

(** X15: [unique] is false exactly when the key at hand is not empty
    and two different places of the list hold entries with that key. The
    places count, not the objects: an object that is on the list twice
    is its own duplicate, and an entry at hand that is not on the list
    is not counted. *)
Theorem X15_unique_two_places this (form : Form.FormController) cur :
  wf this = true -> labels this <> [] ->
  heap this !! label this = Some cur ->
  flag "unique" (check this (Some form)) = Some false <->
  key cur <> [] /\
  exists i j l1 l2,
    (i < j)%nat /\ labels this !! i = Some l1 /\ labels this !! j = Some l2 /\
    has_key (heap this) (key cur) l1 = true /\
    has_key (heap this) (key cur) l2 = true.
Proof.
  intros Hwf Hne Hcur.
  destruct (flag_check _ form _ "unique" Hwf Hne Hcur) as [o ->].
  rewrite validated_unique, duplications_checked, duplications_duplicated.
  rewrite <- occurrences_two. unfold duplicated. split.
  - intros H. injection H as H. apply negb_false_iff, andb_true_iff in H as [Hk H].
    apply negb_true_iff, bool_decide_eq_false in Hk. apply Z.leb_le in H. auto.
  - intros [Hk H]. f_equal. apply negb_false_iff, andb_true_iff. split.
    + apply negb_true_iff, bool_decide_eq_false. assumption.
    + apply Z.leb_le. assumption.
Qed.

Lemma X15_unique_two_places_witness :
  flag "unique"
    (check {| heap := {[ 0%nat := entry (str "a") [] ]};
              labels := [0; 0]%nat;
              label := 0%nat |} (Some empty_form)) = Some false.
Proof.
  apply (X15_unique_two_places
           {| heap := {[ 0%nat := entry (str "a") [] ]};
              labels := [0; 0]%nat;
              label := 0%nat |} empty_form (entry (str "a") []));
    [reflexivity | discriminate | reflexivity |].
  split; [discriminate|].
  exists 0%nat, 1%nat, 0%nat, 0%nat. repeat split. lia.
Defined.

End RowsAgain.

Section Bounds.

Implicit Types (this : DeployLabelController) (cur : DeployLabel).

(** X16: for a key that does not hold both a "/" and a line terminator,
    [prefixLength] is true exactly when the prefix (empty without a "/")
    has at most 253 characters, and [nameLength] exactly when the name
    has at most 63; both flags are always set. *)
Theorem X16_length_bounds this (form : Form.FormController) cur :
  wf this = true -> labels this <> [] ->
  heap this !! label this = Some cur ->
  has_slash (key cur) && has_line_terminator (key cur) = false ->
  exists bp bn,
    flag "prefixLength" (check this (Some form)) = Some bp /\
    flag "nameLength" (check this (Some form)) = Some bn /\
    (bp = true <-> js_length (prefix_of (key cur)) <= 253) /\
    (bn = true <-> js_length (name_of (key cur)) <= 63).
Proof.
  intros Hwf Hne Hcur Hk.
  destruct (length_flags_plain_key _ form _ Hwf Hne Hcur Hk) as [Hp Hn].
  eexists _, _. split; [exact Hp|]. split; [exact Hn|].
  split; apply Z.leb_le.
Qed.

Lemma X16_length_bounds_witness :
  let k := repeat (ch "a") 254 ++ str "/" ++ repeat (ch "b") 63 in
  flag "prefixLength" (check (rows [entry k []] 0%nat) (Some empty_form))
    = Some false /\
  flag "nameLength" (check (rows [entry k []] 0%nat) (Some empty_form))
    = Some true.
Proof.
  intros k.
  destruct (X16_length_bounds (rows [entry k []] 0%nat) empty_form (entry k [])
              eq_refl ltac:(discriminate) eq_refl eq_refl)
    as (bp & bn & Hp & Hn & Hbp & Hbn).
  split.
  - rewrite Hp. f_equal. destruct bp; [|reflexivity].
    assert (H : js_length (prefix_of k) <= 253) by (apply Hbp; reflexivity).
    vm_compute in H. destruct H. reflexivity.
  - rewrite Hn. f_equal. apply Hbn. vm_compute. discriminate.
Defined.

Lemma deleteLabel_wf this : wf this = true -> wf (deleteLabel this) = true.
Proof.
  intros Hwf. destruct (decide (label this ∈ labels this)) as [Hin | Hout].
  - apply list_elem_of_split_l in Hin as (before & after & E & Hb).
    rewrite (deleteLabel_first _ _ _ E Hb). unfold wf in *. cbn [heap labels label].
    rewrite E in Hwf. rewrite forallb_app in *. cbn [forallb] in Hwf.
    rewrite !andb_true_iff in *. tauto.
  - rewrite deleteLabel_absent; assumption.
Qed.

(** X17: after deleting a row that [isRemovable] allows, [check] still
    returns: the list cannot have become empty. *)
Theorem X17_check_after_delete this (form : option Form.FormController) :
  wf this = true -> labels this <> [] ->
  isRemovable this = Ok true ->
  exists this' form', check (deleteLabel this) form = Ok (this', form').
Proof.
  intros Hwf Hne H. apply isRemovable_not_last in H.
  assert (Hne' : labels (deleteLabel this) <> []).
  { destruct (decide (label this ∈ labels this)) as [Hin | Hout].
    - apply list_elem_of_split_l in Hin as (before & after & E & Hb).
      rewrite (deleteLabel_first _ _ _ E Hb). cbn [labels].
      destruct after as [|a after].
      + destruct H. rewrite E. apply last_snoc.
      + intros E'. apply app_eq_nil in E' as [_ E']. discriminate.
    - rewrite deleteLabel_absent; assumption. }
  destruct (check_returns _ form (deleteLabel_wf _ Hwf) Hne')
    as (l & o & _ & _ & form' & Hc).
  eauto.
Qed.

Lemma X17_check_after_delete_witness :
  exists this' form',
    check (deleteLabel (rows [entry (str "a") (str "v"); entry [] []] 0%nat))
      (Some empty_form) = Ok (this', form').
Proof.
  apply (X17_check_after_delete
           (rows [entry (str "a") (str "v"); entry [] []] 0%nat)
           (Some empty_form)); [reflexivity | discriminate | reflexivity].
Defined.

End Bounds.
